(** * WindowPoSt partition scheduler (package [window]): watcher, admitter, prover

    A shallow embedding of [Do], [CanAccept], [processHeadChange] and
    [addTaskToDB] of the WdPost task, together with the parts of the
    collaborators they call: the deadline calculator [dline.NewInfo], the
    relational store reached through [harmonydb], the chain RPC surface and
    the task factory of the durable runtime.

    Go integers are modelled as [Z] with the wrap-around of their width
    written out; tables are lists of rows in insertion order; every database
    statement is logged in the world and may fail as the fault oracle of the
    database says. *)

From Stdlib Require Import String ZArith List Bool Lia Permutation Sorted.
From Stdlib Require Ascii DecimalString DecimalZ DecimalPos.
Import ListNotations.
Open Scope Z_scope.

(** ** Machine integers *)

Module Int64.

Definition modulus : Z := 2 ^ 64.
Definition half : Z := 2 ^ 63.
Definition max : Z := half - 1.

(** The value an [int64] holds after an operation whose exact result is [z]. *)
Definition wrap (z : Z) : Z := (z + half) mod modulus - half.

Definition add (a b : Z) : Z := wrap (a + b).
Definition sub (a b : Z) : Z := wrap (a - b).
Definition mul (a b : Z) : Z := wrap (a * b).

Definition in_range (z : Z) : Prop := - half <= z <= max.

End Int64.

(** ** Errors and results *)

Definition error := string.

(** [xerrors.Errorf("<ctx>: %w", err)] *)
Definition wrapErr (ctx : string) (e : error) : error :=
  (ctx ++ ": " ++ e)%string.

Inductive result (A : Type) : Type :=
| Ok (a : A)
| Fail (e : error).
Arguments Ok {A} a.
Arguments Fail {A} e.

(** ** Deadline calculator (go-state-types, package [dline]) *)

Module dline.

Record Info := mkInfo {
  CurrentEpoch : Z;
  PeriodStart : Z;
  Index : Z;
  Open : Z;
  Close : Z;
  Challenge : Z;
  FaultCutoff : Z;
  WPoStPeriodDeadlines : Z;
  WPoStProvingPeriod : Z;
  WPoStChallengeWindow : Z;
  WPoStChallengeLookback : Z;
  FaultDeclarationCutoff : Z
}.

Definition NewInfo (periodStart deadlineIdx currEpoch
                    wPoStPeriodDeadlines wPoStProvingPeriod
                    wPoStChallengeWindow wPoStChallengeLookback
                    faultDeclarationCutoff : Z) : Info :=
  if deadlineIdx <? wPoStPeriodDeadlines then
    let deadlineOpen :=
      Int64.add periodStart (Int64.mul (Int64.wrap deadlineIdx) wPoStChallengeWindow) in
    {| CurrentEpoch := currEpoch;
       PeriodStart := periodStart;
       Index := deadlineIdx;
       Open := deadlineOpen;
       Close := Int64.add deadlineOpen wPoStChallengeWindow;
       Challenge := Int64.sub deadlineOpen wPoStChallengeLookback;
       FaultCutoff := Int64.sub deadlineOpen faultDeclarationCutoff;
       WPoStPeriodDeadlines := wPoStPeriodDeadlines;
       WPoStProvingPeriod := wPoStProvingPeriod;
       WPoStChallengeWindow := wPoStChallengeWindow;
       WPoStChallengeLookback := wPoStChallengeLookback;
       FaultDeclarationCutoff := faultDeclarationCutoff |}
  else
    let afterLastDeadline := Int64.add periodStart wPoStProvingPeriod in
    {| CurrentEpoch := currEpoch;
       PeriodStart := periodStart;
       Index := deadlineIdx;
       Open := afterLastDeadline;
       Close := afterLastDeadline;
       Challenge := afterLastDeadline;
       FaultCutoff := 0;
       WPoStPeriodDeadlines := wPoStPeriodDeadlines;
       WPoStProvingPeriod := wPoStProvingPeriod;
       WPoStChallengeWindow := wPoStChallengeWindow;
       WPoStChallengeLookback := wPoStChallengeLookback;
       FaultDeclarationCutoff := faultDeclarationCutoff |}.

Definition PeriodStarted (d : Info) : bool :=
  PeriodStart d <=? CurrentEpoch d.

Definition NextPeriodStart (d : Info) : Z :=
  Int64.add (PeriodStart d) (WPoStProvingPeriod d).

Definition PeriodElapsed (d : Info) : bool :=
  NextPeriodStart d <=? CurrentEpoch d.

End dline.

(** ** Protocol constants (lotus, package [miner] / build parameters) *)

Record Policy := mkPolicy {
  WPoStPeriodDeadlines : Z;
  WPoStProvingPeriod : Z;
  WPoStChallengeWindow : Z;
  WPoStChallengeLookback : Z;
  FaultDeclarationCutoff : Z
}.

(** The values of the main network: 48 deadlines of 60 epochs each. *)
Definition mainnet : Policy :=
  {| WPoStPeriodDeadlines := 48;
     WPoStProvingPeriod := 2880;
     WPoStChallengeWindow := 60;
     WPoStChallengeLookback := 20;
     FaultDeclarationCutoff := 70 |}.

Definition NewDeadlineInfo (pol : Policy) (periodStart deadlineIdx currEpoch : Z)
  : dline.Info :=
  dline.NewInfo periodStart deadlineIdx currEpoch
    (WPoStPeriodDeadlines pol) (WPoStProvingPeriod pol)
    (WPoStChallengeWindow pol) (WPoStChallengeLookback pol)
    (FaultDeclarationCutoff pol).

(** ** Addresses and tipsets (go-address, lotus [types]) *)

Definition TaskID := Z.
Definition TipSetKey := list string.

Record TipSet := mkTipSet {
  Height : Z;
  Key : TipSetKey
}.

Inductive Address :=
| IDAddr (id : Z)
| PayloadAddr (protocol : Z) (payload : string).

(** [address.NewIDAddress]: an actor ID above [math.MaxInt64] is refused. *)
Definition NewIDAddress (id : Z) : result Address :=
  if Int64.max <? id then Fail "IDs must be less than 2^63"%string
  else Ok (IDAddr id).

(** [address.IDFromAddress] *)
Definition IDFromAddress (a : Address) : result Z :=
  match a with
  | IDAddr id => Ok id
  | PayloadAddr _ _ => Fail "cannot get id from non id address"%string
  end.

(** ** The relational store *)

Record wdTaskIdentity := mkIdentity {
  SpID : Z;
  ProvingPeriodStart : Z;
  DeadlineIndex : Z;
  PartitionIndex : Z
}.

Definition identity_eqb (a b : wdTaskIdentity) : bool :=
  (SpID a =? SpID b) && (ProvingPeriodStart a =? ProvingPeriodStart b)
  && (DeadlineIndex a =? DeadlineIndex b) && (PartitionIndex a =? PartitionIndex b).

(** A row of [wdpost_partition_tasks]. *)
Record PartitionTaskRow := mkTaskRow {
  pt_task_id : TaskID;
  pt_identity : wdTaskIdentity
}.

(** A row of [wdpost_proofs]. *)
Record ProofRow := mkProofRow {
  pr_sp_id : Z;
  pr_proving_period_start : Z;
  pr_deadline : Z;
  pr_partition : Z;
  pr_submit_at_epoch : Z;
  pr_submit_by_epoch : Z;
  pr_proof_params : list Byte.byte
}.

(** A row of [harmony_test]; [result] is NULL until a test run fills it. *)
Record TestRow := mkTestRow {
  ht_task_id : TaskID;
  ht_result : option string
}.

(** A row of [harmony_task_history]; [result = false] records a failed attempt. *)
Record HistoryRow := mkHistoryRow {
  th_task_id : TaskID;
  th_result : bool
}.

Record Store := mkStore {
  wdpost_partition_tasks : list PartitionTaskRow;
  wdpost_proofs : list ProofRow;
  harmony_test : list TestRow;
  harmony_task_history : list HistoryRow
}.

(** The statements the package sends to the database. *)
Inductive Stmt :=
| SelectIdentity (taskID : TaskID)
| CountHarmonyTest (taskID : TaskID)
| UpdateHarmonyTest (taskID : TaskID) (data : string)
| InsertProof (row : ProofRow)
| SelectTasks (ids : list TaskID)
| CountFailures (taskID : TaskID)
| InsertPartitionTask (row : PartitionTaskRow).

(** The proof of a partition, as [DoPartition] returns it. *)
Record PoSt := mkPoSt {
  post_proof_type : Z;
  post_proof_bytes : list Byte.byte;
  post_skipped : list Z
}.

(** Calls to collaborators that the world records. *)
Inductive Call :=
| CallDoPartition (ts : TipSet) (maddr : Address) (deadline : dline.Info) (partIdx : Z).

(** The world a method runs in: the tables, the statements issued so far
    (oldest first), the recorded collaborator calls (oldest first) and the
    next value of the task-id sequence of the runtime. *)
Record World := mkWorld {
  store : Store;
  issued : list Stmt;
  calls : list Call;
  task_seq : TaskID
}.

(** How the database answers: statement number [n] (counted from 0 over
    [issued]) fails with [db_error n] when that is set, in which case it
    changes nothing; a write for which [db_discards n] holds is accepted
    but stores no row and reports zero affected rows. *)
Record DBFaults := mkDBFaults {
  db_error : nat -> option error;
  db_discards : nat -> bool
}.

Definition no_faults : DBFaults :=
  {| db_error := fun _ => None; db_discards := fun _ => false |}.

Definition log_stmt (s : Stmt) (w : World) : World :=
  {| store := store w; issued := issued w ++ [s]; calls := calls w;
     task_seq := task_seq w |}.

Definition log_call (c : Call) (w : World) : World :=
  {| store := store w; issued := issued w; calls := calls w ++ [c];
     task_seq := task_seq w |}.

Definition set_store (st : Store) (w : World) : World :=
  {| store := st; issued := issued w; calls := calls w; task_seq := task_seq w |}.

(** Scanning a [bigint] column into a Go [uint64]. *)
Definition scan_uint64 (v : Z) : result Z :=
  if v <? 0 then Fail "cannot scan negative value into uint64"%string else Ok v.

(** *** Reads *)

Definition ErrNoRows : error := "no rows in result set"%string.

(** [Select sp_id, proving_period_start, deadline_index, partition_index
     from wdpost_partition_tasks where task_id = $1], scanned into four
    [uint64] variables. *)
Definition queryIdentity (db : DBFaults) (taskID : TaskID) (w : World)
  : result (Z * Z * Z * Z) * World :=
  let n := length (issued w) in
  let w' := log_stmt (SelectIdentity taskID) w in
  match db_error db n with
  | Some e => (Fail e, w')
  | None =>
    match find (fun r => pt_task_id r =? taskID) (wdpost_partition_tasks (store w)) with
    | None => (Fail ErrNoRows, w')
    | Some r =>
      let i := pt_identity r in
      match scan_uint64 (SpID i), scan_uint64 (ProvingPeriodStart i),
            scan_uint64 (DeadlineIndex i), scan_uint64 (PartitionIndex i) with
      | Ok sp, Ok pps, Ok dl, Ok part => (Ok (sp, pps, dl, part), w')
      | Fail e, _, _, _ | _, Fail e, _, _ | _, _, Fail e, _ | _, _, _, Fail e =>
        (Fail e, w')
      end
    end
  end.

Definition count_test_rows (st : Store) (taskID : TaskID) : Z :=
  Z.of_nat (length (filter (fun r => ht_task_id r =? taskID) (harmony_test st))).

(** [SELECT COUNT( * ) FROM harmony_test WHERE task_id = $1] *)
Definition queryTestCount (db : DBFaults) (taskID : TaskID) (w : World)
  : result Z * World :=
  let n := length (issued w) in
  let w' := log_stmt (CountHarmonyTest taskID) w in
  match db_error db n with
  | Some e => (Fail e, w')
  | None => (Ok (count_test_rows (store w) taskID), w')
  end.

Definition failure_count (st : Store) (taskID : TaskID) : Z :=
  Z.of_nat (length (filter (fun r => (th_task_id r =? taskID) && negb (th_result r))
                           (harmony_task_history st))).

(** [SELECT COUNT( * ) FROM harmony_task_history WHERE task_id = $1 AND result = false] *)
Definition queryFailureCount (db : DBFaults) (taskID : TaskID) (w : World)
  : result Z * World :=
  let n := length (issued w) in
  let w' := log_stmt (CountFailures taskID) w in
  match db_error db n with
  | Some e => (Fail e, w')
  | None => (Ok (failure_count (store w) taskID), w')
  end.

Definition mem_id (ids : list TaskID) (x : TaskID) : bool :=
  existsb (fun y => y =? x) ids.

(** The rows of [wdpost_partition_tasks] whose [task_id] is among [ids], in
    table order (the statement has no ORDER BY). *)
Definition rows_in (ids : list TaskID) (st : Store) : list PartitionTaskRow :=
  filter (fun r => mem_id ids (pt_task_id r)) (wdpost_partition_tasks st).

(** *** Writes *)

(** [UPDATE harmony_test SET result=$1 WHERE task_id=$2] *)
Definition update_test_result (taskID : TaskID) (data : string) (st : Store) : Store :=
  {| wdpost_partition_tasks := wdpost_partition_tasks st;
     wdpost_proofs := wdpost_proofs st;
     harmony_test :=
       map (fun r => if ht_task_id r =? taskID
                     then {| ht_task_id := ht_task_id r; ht_result := Some data |}
                     else r) (harmony_test st);
     harmony_task_history := harmony_task_history st |}.

Definition execUpdateTest (db : DBFaults) (taskID : TaskID) (data : string) (w : World)
  : (Z * option error) * World :=
  let n := length (issued w) in
  let w' := log_stmt (UpdateHarmonyTest taskID data) w in
  match db_error db n with
  | Some e => ((0, Some e), w')
  | None =>
    if db_discards db n then ((0, None), w')
    else ((count_test_rows (store w) taskID, None),
          set_store (update_test_result taskID data (store w)) w')
  end.

Definition add_proof (row : ProofRow) (st : Store) : Store :=
  {| wdpost_partition_tasks := wdpost_partition_tasks st;
     wdpost_proofs := wdpost_proofs st ++ [row];
     harmony_test := harmony_test st;
     harmony_task_history := harmony_task_history st |}.

(** [INSERT INTO wdpost_proofs (...) VALUES ($1, ..., $7)] *)
Definition execInsertProof (db : DBFaults) (row : ProofRow) (w : World)
  : (Z * option error) * World :=
  let n := length (issued w) in
  let w' := log_stmt (InsertProof row) w in
  match db_error db n with
  | Some e => ((0, Some e), w')
  | None =>
    if db_discards db n then ((0, None), w')
    else ((1, None), set_store (add_proof row (store w)) w')
  end.

(** ** Programs with early return *)

(** A Go function body: it runs in a world and either goes on with a value
    or has executed a [return] with the function's results [R]. *)
Definition Prog (R A : Type) : Type := World -> (A + R) * World.

Definition ret {R A} (a : A) : Prog R A := fun w => (inl a, w).

Definition exit {R A} (r : R) : Prog R A := fun w => (inr r, w).

Definition bind {R A B} (m : Prog R A) (k : A -> Prog R B) : Prog R B :=
  fun w =>
    match m w with
    | (inl a, w') => k a w'
    | (inr r, w') => (inr r, w')
    end.

Definition lift {R A} (f : World -> A * World) : Prog R A :=
  fun w => let (a, w') := f w in (inl a, w').

(** [x, err := f(...); if err != nil { return onErr(err) }] *)
Definition orReturn {R A} (f : World -> result A * World) (onErr : error -> R)
  : Prog R A :=
  fun w =>
    match f w with
    | (Ok a, w') => (inl a, w')
    | (Fail e, w') => (inr (onErr e), w')
    end.

(** A call that does not touch the world. *)
Definition pure {A} (r : result A) : World -> result A * World :=
  fun w => (r, w).

Definition run {R} (m : Prog R R) (w : World) : R * World :=
  match m w with
  | (inl r, w') => (r, w')
  | (inr r, w') => (r, w')
  end.

Declare Scope prog_scope.
Delimit Scope prog_scope with prog.
Notation "x <- c1 ;; c2" := (bind c1 (fun x => c2))
  (at level 61, c1 at next level, right associativity) : prog_scope.
Notation "' p <- c1 ;; c2" := (bind c1 (fun x => match x with p => c2 end))
  (at level 61, p pattern, c1 at next level, right associativity) : prog_scope.

(** ** The task and its collaborators *)

Record Partition := mkPartition {
  AllSectors : list Z;
  RecoveringSectors : list Z
}.

(** The chain RPC surface, restricted to the calls of the three methods.
    Chain state is a function of the tipset key it is asked at. *)
Record WDPoStAPI := mkAPI {
  ChainHead : result TipSet;
  StateMinerProvingDeadline : Address -> TipSetKey -> result dline.Info;
  StateMinerPartitions : Address -> Z -> TipSetKey -> result (list Partition);
  ChainGetTipSetAfterHeight : Z -> TipSetKey -> result TipSet
}.


(** The JSON document of a test run, before rendering. *)
Record TestDoc := mkTestDoc {
  doc_sp_id : Z;
  doc_proving_period_start : Z;
  doc_deadline : Z;
  doc_partition : Z;
  doc_submit_at_epoch : Z;
  doc_submit_by_epoch : Z;
  doc_post_out : PoSt;
  doc_proof_params : list Byte.byte
}.

(** What the callback handed to the task factory returns: the verdict
    (commit or discard) and an error. *)
Definition TxCallback := TaskID -> World -> (bool * option error) * World.

Definition AddTaskFunc := TxCallback -> World -> World.

(** The receiver of the methods. [actors] lists the keys of the Go map;
    the order in which a [range] over it yields them is an argument of
    [processHeadChange]. [DoPartition] is the answer of the proof generator
    (see [callDoPartition]); [MarshalCBOR] and [MarshalIndent] are the two
    encoders [Do] calls. *)
Record WdPostTask := mkWdPostTask {
  api : WDPoStAPI;
  db : DBFaults;
  paramsReady : result bool;
  windowPoStTF : option AddTaskFunc;
  actors : list Address;
  max : Z;
  DoPartition : TipSet -> Address -> dline.Info -> Z -> result PoSt;
  MarshalCBOR : PoSt -> result (list Byte.byte);
  MarshalIndent : TestDoc -> result string
}.

(** Modelled from the spec: [DoPartition], the proof generator of the
    package, is not among the sources. It loads the miner and the partition
    from the chain, derives the randomness, runs the prover and declares
    skipped sectors to the fault tracker, and returns the proof or an error;
    it writes no table of the relational store. The call is recorded. *)
Definition callDoPartition (t : WdPostTask) (ts : TipSet) (maddr : Address)
    (deadline : dline.Info) (partIdx : Z) (w : World) : result PoSt * World :=
  (DoPartition t ts maddr deadline partIdx,
   log_call (CallDoPartition ts maddr deadline partIdx) w).

(** ** Component C: [Do] *)

Definition DoResult : Type := bool * option error.

(** The closure [isTestTask] of [Do]. [testTask] is the captured [*int]:
    [None] is the nil pointer, [Some c] a pointer to [c]. A failed query
    leaves the freshly allocated zero in place. *)
Definition isTestTask {R} (t : WdPostTask) (taskID : TaskID) (testTask : option Z)
  : Prog R (bool * option Z) :=
  match testTask with
  | Some c => ret (0 <? c, Some c)
  | None =>
    fun w =>
      match queryTestCount (db t) taskID w with
      | (Fail _, w') => (inl (false, Some 0), w')
      | (Ok c, w') => (inl (0 <? c, Some c), w')
      end
  end.

Definition failWith (e : error) : DoResult := (false, Some e).

Definition Do (pol : Policy) (t : WdPostTask) (taskID : TaskID)
  : World -> DoResult * World :=
  run (
    ' (spID, pps, dlIdx, partIdx) <- orReturn (queryIdentity (db t) taskID) failWith ;;
    head <- orReturn (pure (ChainHead (api t))) failWith ;;
    let deadline := NewDeadlineInfo pol (Int64.wrap pps) dlIdx (Height head) in
    let testTask : option Z := None in
    ' (stale, testTask) <-
        (if dline.PeriodElapsed deadline
         then ' (isTest, testTask) <- isTestTask (R:=DoResult) t taskID testTask ;;
              ret (negb isTest, testTask)
         else ret (false, testTask)) ;;
    if stale : bool then exit (true, None) else
    ' (deadline, testTask) <-
        (if Height head <? dline.Challenge deadline
         then ' (isTest, testTask) <- isTestTask (R:=DoResult) t taskID testTask ;;
              if isTest : bool
              then ret (NewDeadlineInfo pol
                          (Int64.sub (Int64.wrap pps) (dline.WPoStProvingPeriod deadline))
                          dlIdx
                          (Int64.sub (Height head) (dline.WPoStProvingPeriod deadline)),
                        testTask)
              else ret (deadline, testTask)
         else ret (deadline, testTask)) ;;
    maddr <- orReturn (pure (NewIDAddress spID)) failWith ;;
    ts <- orReturn (pure (ChainGetTipSetAfterHeight (api t)
                            (dline.Challenge deadline) (Key head))) failWith ;;
    postOut <- orReturn (callDoPartition t ts maddr deadline partIdx) failWith ;;
    msgbuf <- orReturn (pure (MarshalCBOR t postOut))
                (fun e => failWith (wrapErr "marshaling PoSt" e)) ;;
    ' (isTest, _) <- isTestTask (R:=DoResult) t taskID testTask ;;
    if isTest : bool then
      data <- orReturn (pure (MarshalIndent t
                  {| doc_sp_id := spID;
                     doc_proving_period_start := pps;
                     doc_deadline := dline.Index deadline;
                     doc_partition := partIdx;
                     doc_submit_at_epoch := dline.Open deadline;
                     doc_submit_by_epoch := dline.Close deadline;
                     doc_post_out := postOut;
                     doc_proof_params := msgbuf |}))
                (fun e => failWith (wrapErr "marshaling message" e)) ;;
      ' (_, err) <- lift (execUpdateTest (db t) taskID data) ;;
      match err with
      | Some e => exit (failWith (wrapErr "updating harmony_test" e))
      | None => exit (true, None)
      end
    else
      ' (n, err) <- lift (execInsertProof (db t)
                  {| pr_sp_id := spID;
                     pr_proving_period_start := pps;
                     pr_deadline := dline.Index deadline;
                     pr_partition := partIdx;
                     pr_submit_at_epoch := dline.Open deadline;
                     pr_submit_by_epoch := dline.Close deadline;
                     pr_proof_params := msgbuf |}) ;;
      match err with
      | Some e => exit (failWith e)
      | None =>
        if negb (n =? 1) then exit (false, err)
        else exit (true, None)
      end
  )%prog.

(** ** Component B: [CanAccept] *)

Module harmonytask.

Record TaskAndBid := mkTaskAndBid {
  TaskID : Z;
  Bid : Z
}.

Record TaskTypeDetails := mkDetails {
  Name : string;
  Max : Z;
  MaxFailures : Z
}.

End harmonytask.

(** The local struct [wdTaskDef] of [CanAccept]. The Go field [dlInfo] is
    a nil pointer after hydration; the filter pass assigns it for every
    element before anything reads it, and that pass builds the record here. *)
Module TaskDef.

Record wdTaskDef := mkTaskDef {
  TaskID : Z;
  SpID : Z;
  ProvingPeriodStart : Z;
  DeadlineIndex : Z;
  PartitionIndex : Z;
  dlInfo : dline.Info
}.

End TaskDef.
Import TaskDef(wdTaskDef).

(** [sort.Slice]: the library promises a sorted rearrangement of the slice
    and no stability. The interface carries exactly that promise. *)
Record SliceSorter := mkSorter {
  sortSlice : forall A : Type, (A -> A -> bool) -> list A -> list A;
  sortSlice_perm : forall (A : Type) (less : A -> A -> bool) (l : list A),
    Permutation l (sortSlice A less l);
  sortSlice_sorted : forall (A : Type) (key : A -> Z) (l : list A),
    StronglySorted (fun a b => key a <= key b)
                   (sortSlice A (fun a b => key a <? key b) l)
}.

Arguments sortSlice _ {A} _ _.
Arguments sortSlice_perm _ {A} _ _.
Arguments sortSlice_sorted _ {A} _ _.

(** The insertion sort [sort.Slice] runs on slices of at most 12 elements:
    [for i := a+1; i < b; i++ { for j := i; j > a && less(j, j-1); j-- { swap } }]. *)
Fixpoint insert_back {A} (less : A -> A -> bool) (x : A) (rev_sorted : list A) : list A :=
  match rev_sorted with
  | [] => [x]
  | y :: rest => if less x y then y :: insert_back less x rest else x :: rev_sorted
  end.

Definition insertionSort {A} (less : A -> A -> bool) (l : list A) : list A :=
  rev (fold_left (fun acc x => insert_back less x acc) l []).

(** A hydrated row: the columns of the batched select, before [dlInfo]. *)
Definition scan_task_row (r : PartitionTaskRow) : result (Z * Z * Z * Z * Z) :=
  let i := pt_identity r in
  match scan_uint64 (SpID i), scan_uint64 (DeadlineIndex i),
        scan_uint64 (PartitionIndex i) with
  | Ok sp, Ok dl, Ok part =>
    Ok (pt_task_id r, sp, ProvingPeriodStart i, dl, part)
  | Fail e, _, _ | _, Fail e, _ | _, _, Fail e => Fail e
  end.

Fixpoint scan_rows (rows : list PartitionTaskRow) : result (list (Z * Z * Z * Z * Z)) :=
  match rows with
  | [] => Ok []
  | r :: rest =>
    match scan_task_row r with
    | Fail e => Fail e
    | Ok x =>
      match scan_rows rest with
      | Fail e => Fail e
      | Ok xs => Ok (x :: xs)
      end
    end
  end.

(** [Select task_id, sp_id, proving_period_start, deadline_index, partition_index
     from wdpost_partition_tasks where task_id IN (...)] *)
Definition selectTasks (db : DBFaults) (ids : list TaskID) (w : World)
  : result (list (Z * Z * Z * Z * Z)) * World :=
  let n := length (issued w) in
  let w' := log_stmt (SelectTasks ids) w in
  match db_error db n with
  | Some e => (Fail e, w')
  | None => (scan_rows (rows_in ids (store w)), w')
  end.

(** The callback of [lo.Filter]: it stores the deadline of the task at the
    current head in [dlInfo]. *)
Definition with_dlInfo (pol : Policy) (height : Z) (r : Z * Z * Z * Z * Z) : wdTaskDef :=
  let '(tid, sp, pps, dl, part) := r in
  {| TaskDef.TaskID := tid;
     TaskDef.SpID := sp;
     TaskDef.ProvingPeriodStart := pps;
     TaskDef.DeadlineIndex := dl;
     TaskDef.PartitionIndex := part;
     TaskDef.dlInfo := NewDeadlineInfo pol pps dl height |}.

Definition is_stale (d : wdTaskDef) : bool :=
  dline.PeriodElapsed (TaskDef.dlInfo d).

Definition open_of (d : wdTaskDef) : Z := dline.Open (TaskDef.dlInfo d).

(** [lo.Map] with a callback that talks to the database: elements are
    visited in slice order, [idx] counting from the given start. *)
Fixpoint mapWithIndex {A B} (f : A -> Z -> World -> B * World) (idx : Z)
    (l : list A) (w : World) : list B * World :=
  match l with
  | [] => ([], w)
  | a :: rest =>
    let (b, w1) := f a idx w in
    let (bs, w2) := mapWithIndex f (idx + 1) rest w1 in
    (b :: bs, w2)
  end.

(** The callback of the final [lo.Map] of [CanAccept]. [len], [idx] and the
    scanned count are Go [int]s; a slice length plus ten minus an index
    stays far from the bounds of the type, so the arithmetic is exact. *)
Definition bid_for (db : DBFaults) (len : Z) (d : wdTaskDef) (idx : Z) (w : World)
  : harmonytask.TaskAndBid * World :=
  let bid := len + 10 - idx in
  let (q, w') := queryFailureCount db (TaskDef.TaskID d) w in
  let r := match q with Ok c => c | Fail _ => 0 end in
  ({| harmonytask.TaskID := TaskDef.TaskID d; harmonytask.Bid := bid - r |}, w').

Definition CanAccept (pol : Policy) (S : SliceSorter) (t : WdPostTask)
    (ids : list TaskID) (w : World)
  : (list harmonytask.TaskAndBid * option error) * World :=
  match paramsReady t with
  | Fail e => (([], Some (wrapErr "failed to setup params" e)), w)
  | Ok false => (([], None), w)
  | Ok true =>
    match ChainHead (api t) with
    | Fail e => (([], Some e), w)
    | Ok ts =>
      let (rows, w1) := selectTasks (db t) ids w in
      match rows with
      | Fail e => (([], Some e), w1)
      | Ok rows =>
        let tasks := map (with_dlInfo pol (Height ts)) rows in
        let f := filter is_stale tasks in
        if (0 <? length f)%nat then
          ((map (fun d => {| harmonytask.TaskID := TaskDef.TaskID d;
                             harmonytask.Bid := 1000 |}) f, None), w1)
        else
          let tasks := sortSlice S (fun a b => open_of a <? open_of b) tasks in
          let (bids, w2) :=
            mapWithIndex (bid_for (db t) (Z.of_nat (length tasks))) 0 tasks w1 in
          ((bids, None), w2)
      end
    end
  end.

Definition TypeDetails (t : WdPostTask) : harmonytask.TaskTypeDetails :=
  {| harmonytask.Name := "WdPost";
     harmonytask.Max := max t;
     harmonytask.MaxFailures := 5 |}.

(** ** Component A: [processHeadChange] and [addTaskToDB] *)

Definition has_task_id (id : TaskID) (st : Store) : bool :=
  existsb (fun r => pt_task_id r =? id) (wdpost_partition_tasks st).

Definition has_identity (i : wdTaskIdentity) (st : Store) : bool :=
  existsb (fun r => identity_eqb (pt_identity r) i) (wdpost_partition_tasks st).

(** Modelled from the spec: the schema of [wdpost_partition_tasks] is not
    among the sources. The spec gives [task_id] as primary key and has the
    database enforce uniqueness of the identity tuple; an insert that
    breaks either is refused with an error. *)
Definition unique_violation (row : PartitionTaskRow) (st : Store) : option error :=
  if has_task_id (pt_task_id row) st
  then Some "duplicate key value violates unique constraint (task_id)"%string
  else if has_identity (pt_identity row) st
  then Some "duplicate key value violates unique constraint (identity)"%string
  else None.

Definition add_task_row (row : PartitionTaskRow) (st : Store) : Store :=
  {| wdpost_partition_tasks := wdpost_partition_tasks st ++ [row];
     wdpost_proofs := wdpost_proofs st;
     harmony_test := harmony_test st;
     harmony_task_history := harmony_task_history st |}.

(** [INSERT INTO wdpost_partition_tasks (...) VALUES ($1, ..., $5)], inside
    the transaction of the factory. The statement has no conflict clause. *)
Definition execInsertTask (db : DBFaults) (row : PartitionTaskRow) (w : World)
  : (Z * option error) * World :=
  let n := length (issued w) in
  let w' := log_stmt (InsertPartitionTask row) w in
  match db_error db n with
  | Some e => ((0, Some e), w')
  | None =>
    match unique_violation row (store w) with
    | Some e => ((0, Some e), w')
    | None =>
      if db_discards db n then ((0, None), w')
      else ((1, None), set_store (add_task_row row (store w)) w')
    end
  end.

Definition addTaskToDB (db : DBFaults) (taskId : TaskID) (taskIdent : wdTaskIdentity)
    (w : World) : (bool * option error) * World :=
  let '((_, err), w') :=
    execInsertTask db {| pt_task_id := taskId; pt_identity := taskIdent |} w in
  match err with
  | Some e => ((false, Some (wrapErr "insert partition task" e)), w')
  | None => ((true, None), w')
  end.

(** Modelled from the spec: the task factory of the durable runtime
    ([harmonytask.AddTaskFunc]) is not among the sources. It assigns a task
    id, runs the callback inside a database transaction and commits what
    the callback wrote when the verdict is commit without error; otherwise
    the transaction is discarded. It reports nothing to its caller. *)
Definition AddTask : AddTaskFunc :=
  fun extra w =>
    let '((commit, err), w') := extra (task_seq w) w in
    let st := match commit, err with
              | true, None => store w'
              | _, _ => store w
              end in
    {| store := st; issued := issued w'; calls := calls w';
       task_seq := task_seq w + 1 |}.

(** The inner loop [for pidx := range partitions]. *)
Fixpoint rangePartitions (t : WdPostTask) (aid : Z) (di : dline.Info)
    (pidxs : list Z) (w : World) : option error * World :=
  match pidxs with
  | [] => (None, w)
  | pidx :: rest =>
    let tid := {| SpID := aid;
                  ProvingPeriodStart := dline.PeriodStart di;
                  DeadlineIndex := dline.Index di;
                  PartitionIndex := pidx |} in
    match windowPoStTF t with
    | None => (Some "no task func"%string, w)
    | Some tf =>
      rangePartitions t aid di rest
        (tf (fun id tx => addTaskToDB (db t) id tid tx) w)
    end
  end.

Definition indices {A} (l : list A) : list Z :=
  map Z.of_nat (seq 0 (length l)).

(** The outer loop [for act := range t.actors], over the keys in the order
    [visit] in which this run of the loop yields them. *)
Fixpoint rangeActors (t : WdPostTask) (apply : TipSet) (visit : list Address)
    (w : World) : option error * World :=
  match visit with
  | [] => (None, w)
  | maddr :: rest =>
    match IDFromAddress maddr with
    | Fail e => (Some (wrapErr "getting miner ID" e), w)
    | Ok aid =>
      match StateMinerProvingDeadline (api t) maddr (Key apply) with
      | Fail e => (Some e, w)
      | Ok di =>
        if negb (dline.PeriodStarted di) then (None, w)
        else
          match StateMinerPartitions (api t) maddr (dline.Index di) (Key apply) with
          | Fail e => (Some (wrapErr "getting partitions" e), w)
          | Ok partitions =>
            match rangePartitions t aid di (indices partitions) w with
            | (Some e, w') => (Some e, w')
            | (None, w') => rangeActors t apply rest w'
            end
          end
      end
    end
  end.

Definition processHeadChange (t : WdPostTask) (visit : list Address)
    (revert apply : TipSet) (w : World) : option error * World :=
  rangeActors t apply visit w.

(** The identity tuples present in the task table. *)
Definition identities (st : Store) : list wdTaskIdentity :=
  map pt_identity (wdpost_partition_tasks st).

Definition task_exists (i : wdTaskIdentity) (w : World) : Prop :=
  has_identity i (store w) = true.

(** Modelled from the spec: what the durable runtime does with the result
    of [Do] is not among the sources. A task whose [Do] reports done is
    deleted; one that reports not done is offered again until the failures
    recorded for it reach [MaxFailures]. *)
Inductive Fate := Deleted | OfferedAgain.

Definition fate_after_Do (details : harmonytask.TaskTypeDetails)
    (priorFailures : Z) (r : DoResult) : Fate :=
  if fst r then Deleted
  else if harmonytask.MaxFailures details <=? priorFailures + 1 then Deleted
  else OfferedAgain.

(** [sort.Slice] as it runs on short slices: an inhabitant of the interface. *)
Definition goSort : SliceSorter.
Proof.
  refine {| sortSlice := @insertionSort |}.
  - intros A less l. unfold insertionSort.
    assert (Hins : forall x acc, Permutation (x :: acc) (insert_back less x acc)).
    { intros x acc. induction acc as [|y rest IH]; simpl; [reflexivity|].
      destruct (less x y); [|reflexivity].
      rewrite perm_swap. now apply perm_skip. }
    assert (Hfold : forall l acc,
               Permutation (l ++ acc) (fold_left (fun a x => insert_back less x a) l acc)).
    { clear l. intros l. induction l as [|a l IH]; intros acc; simpl; [reflexivity|].
      rewrite <- IH. rewrite <- Hins. apply Permutation_middle. }
    rewrite <- Permutation_rev. rewrite <- Hfold. now rewrite app_nil_r.
  - intros A key l. unfold insertionSort.
    set (less := fun a b => key a <? key b).
    set (desc := fun a b : A => key b <= key a).
    assert (Hins : forall x acc, StronglySorted desc acc ->
               StronglySorted desc (insert_back less x acc)
               /\ forall z, In z (insert_back less x acc) -> z = x \/ In z acc).
    { intros x acc. induction acc as [|y rest IH]; intros Hs; simpl.
      - split; [repeat constructor|]. intros z [->|[]]. now left.
      - apply StronglySorted_inv in Hs. destruct Hs as [Hrest Hy].
        destruct (IH Hrest) as [IHs IHin].
        unfold less at 1 3. destruct (key x <? key y) eqn:E.
        + split.
          * constructor; [exact IHs|]. rewrite Forall_forall. intros z Hz.
            destruct (IHin z Hz) as [->|Hz'].
            -- unfold desc. apply Z.ltb_lt in E. lia.
            -- rewrite Forall_forall in Hy. now apply Hy.
          * intros z [->|Hz]; [right; now left|].
            destruct (IHin z Hz) as [->|Hz']; [now left|right; now right].
        + split.
          * constructor; [constructor; assumption|].
            constructor; [unfold desc; apply Z.ltb_ge in E; lia|].
            rewrite Forall_forall in *. intros z Hz. specialize (Hy z Hz).
            unfold desc in *. apply Z.ltb_ge in E. lia.
          * intros z [->|Hz]; [now left|now right]. }
    assert (Hfold : forall l acc, StronglySorted desc acc ->
               StronglySorted desc (fold_left (fun a x => insert_back less x a) l acc)).
    { clear l. intros l. induction l as [|a l IH]; intros acc Hs; simpl; [exact Hs|].
      apply IH. now apply Hins. }
    assert (Hrev : forall l, StronglySorted desc l ->
               StronglySorted (fun a b => key a <= key b) (rev l)).
    { clear. intros l. induction l as [|a l IH]; intros Hs; simpl; [constructor|].
      apply StronglySorted_inv in Hs. destruct Hs as [Hl Ha].
      specialize (IH Hl). revert IH.
      generalize (rev l) (proj1 (Forall_forall _ _) (Forall_rev Ha)).
      intros r Hr IH. induction IH as [|b r' Hr' IHr Hb]; simpl.
      - repeat constructor.
      - constructor.
        + apply IHr. intros z Hz. apply Hr. now right.
        + apply Forall_app. split; [exact Hb|]. constructor; [|constructor].
          apply (Hr b). now left. }
    apply Hrev, Hfold. constructor.
Defined.

(** ** Observations used by the statements *)

Definition is_test_query (s : Stmt) : bool :=
  match s with
  | CountHarmonyTest _ => true
  | _ => false
  end.

(** How many times a run asked the database whether the task is a test task. *)
Definition test_queries (l : list Stmt) : nat :=
  length (filter is_test_query l).

(** What [CanAccept] subtracts from the bid of a task when its history
    query is statement number [n]: the recorded failure count, or zero
    when that query fails. *)
Definition penalty (db : DBFaults) (st : Store) (n : nat) (taskID : TaskID) : Z :=
  match db_error db n with
  | Some _ => 0
  | None => failure_count st taskID
  end.

(** The identity [processHeadChange] proposes for partition [pidx] of the
    deadline [di] of miner [aid]. *)
Definition identity_of (aid : Z) (di : dline.Info) (pidx : Z) : wdTaskIdentity :=
  {| SpID := aid;
     ProvingPeriodStart := dline.PeriodStart di;
     DeadlineIndex := dline.Index di;
     PartitionIndex := pidx |}.

(** The identities a run of the outer loop over [visit] proposes to the
    task factory, in order, up to the miner at which the loop returns. *)
Fixpoint proposed (t : WdPostTask) (apply : TipSet) (visit : list Address)
  : list wdTaskIdentity :=
  match visit with
  | [] => []
  | maddr :: rest =>
    match IDFromAddress maddr,
          StateMinerProvingDeadline (api t) maddr (Key apply) with
    | Ok aid, Ok di =>
      if negb (dline.PeriodStarted di) then []
      else
        match StateMinerPartitions (api t) maddr (dline.Index di) (Key apply) with
        | Ok partitions =>
          map (identity_of aid di) (indices partitions) ++ proposed t apply rest
        | Fail _ => []
        end
    | _, _ => []
    end
  end.

(** Task ids in the table lie below the next value of the sequence. *)
Definition fresh_ids (w : World) : Prop :=
  Forall (fun r => pt_task_id r < task_seq w) (wdpost_partition_tasks (store w)).

(** A database that answers every statement and stores every write. *)
Definition fault_free (db : DBFaults) : Prop :=
  (forall n, db_error db n = None) /\ (forall n, db_discards db n = false).

(** The tasks [CanAccept] hydrates: the rows of the batch found in the
    store, each with its deadline at the current chain head. *)
Definition hydrated (pol : Policy) (t : WdPostTask) (ids : list TaskID) (w : World)
  : list wdTaskDef :=
  match ChainHead (api t), scan_rows (rows_in ids (store w)) with
  | Ok ts, Ok rows => map (with_dlInfo pol (Height ts)) rows
  | _, _ => []
  end.

Definition is_live (d : wdTaskDef) : bool := negb (is_stale d).

Definition stale_bid (d : wdTaskDef) : harmonytask.TaskAndBid :=
  {| harmonytask.TaskID := TaskDef.TaskID d; harmonytask.Bid := 1000 |}.

Definition by_open (a b : wdTaskDef) : bool := open_of a <? open_of b.

Definition base_bid (n : Z) (i : nat) : Z := n + 10 - Z.of_nat i.

(** The proof record [Do] inserts on the live path. *)
Definition proof_row (spID pps partIdx : Z) (deadline : dline.Info)
    (msgbuf : list Byte.byte) : ProofRow :=
  {| pr_sp_id := spID;
     pr_proving_period_start := pps;
     pr_deadline := dline.Index deadline;
     pr_partition := partIdx;
     pr_submit_at_epoch := dline.Open deadline;
     pr_submit_by_epoch := dline.Close deadline;
     pr_proof_params := msgbuf |}.

(** ** Concrete runs *)

Module Scenario.

Definition emptyStore : Store :=
  {| wdpost_partition_tasks := []; wdpost_proofs := [];
     harmony_test := []; harmony_task_history := [] |}.

Definition worldOf (st : Store) (next : TaskID) : World :=
  {| store := st; issued := []; calls := []; task_seq := next |}.

Definition tasksOnly (rows : list PartitionTaskRow) : Store :=
  {| wdpost_partition_tasks := rows; wdpost_proofs := [];
     harmony_test := []; harmony_task_history := [] |}.

Definition headAt (h : Z) : TipSet := {| Height := h; Key := ["head"%string] |}.

Definition threePartitions : list Partition :=
  [mkPartition [1] []; mkPartition [2] []; mkPartition [3] []].

Definition minerA : Address := IDAddr 1000.
Definition minerB : Address := IDAddr 1001.

(** Miner A's proving period starts at epoch 5000, miner B's at epoch 0;
    both have three partitions in the current deadline. The chain has a
    tipset at every height up to its head at [h] and none above it. *)
Definition chain (h : Z) : WDPoStAPI :=
  {| ChainHead := Ok (headAt h);
     StateMinerProvingDeadline := fun maddr _ =>
       match maddr with
       | IDAddr 1000 => Ok (NewDeadlineInfo mainnet 5000 0 h)
       | _ => Ok (NewDeadlineInfo mainnet 0 (h / 60) h)
       end;
     StateMinerPartitions := fun _ _ _ => Ok threePartitions;
     ChainGetTipSetAfterHeight := fun height _ =>
       if h <? height
       then Fail "looking for tipset with height greater than start point"%string
       else Ok {| Height := height; Key := ["challenge"%string] |} |}.

Definition aProof : PoSt :=
  {| post_proof_type := 8; post_proof_bytes := []; post_skipped := [] |}.

Definition task (h : Z) (faults : DBFaults) : WdPostTask :=
  {| api := chain h;
     db := faults;
     paramsReady := Ok true;
     windowPoStTF := Some AddTask;
     actors := [minerA; minerB];
     max := 1;
     DoPartition := fun _ _ _ _ => Ok aProof;
     MarshalCBOR := fun _ => Ok [];
     MarshalIndent := fun _ => Ok "{}"%string |}.

(** One task row, id 7, for partition 0 of deadline 2 of miner 1001. *)
Definition oneTask : World :=
  worldOf (tasksOnly [ {| pt_task_id := 7; pt_identity := mkIdentity 1001 0 2 0 |} ]) 8.

(** The third statement of a run stores nothing and reports zero rows. *)
Definition thirdDiscarded : DBFaults :=
  {| db_error := fun _ => None; db_discards := fun n => Nat.eqb n 2 |}.

(** The second statement of a run fails. *)
Definition secondFails : DBFaults :=
  {| db_error := fun n => if Nat.eqb n 1 then Some "connection reset"%string else None;
     db_discards := fun _ => false |}.

(** Three live rows opening at 500, 600 and 700 with 0, 2 and 0 failures. *)
Definition threeLive : World :=
  worldOf {| wdpost_partition_tasks :=
               [ {| pt_task_id := 1; pt_identity := mkIdentity 1001 500 0 0 |};
                 {| pt_task_id := 2; pt_identity := mkIdentity 1001 600 0 0 |};
                 {| pt_task_id := 3; pt_identity := mkIdentity 1001 700 0 0 |} ];
             wdpost_proofs := [];
             harmony_test := [];
             harmony_task_history :=
               [ {| th_task_id := 2; th_result := false |};
                 {| th_task_id := 2; th_result := false |};
                 {| th_task_id := 3; th_result := true |} ] |} 4.

(** Two live rows given latest-opening first. *)
Definition twoLive : World :=
  worldOf (tasksOnly
             [ {| pt_task_id := 1; pt_identity := mkIdentity 1001 600 0 0 |};
               {| pt_task_id := 2; pt_identity := mkIdentity 1001 500 0 0 |} ]) 3.

(** One live row with twenty recorded failures. *)
Definition manyFailures : World :=
  worldOf {| wdpost_partition_tasks :=
               [ {| pt_task_id := 1; pt_identity := mkIdentity 1001 500 0 0 |} ];
             wdpost_proofs := [];
             harmony_test := [];
             harmony_task_history :=
               repeat {| th_task_id := 1; th_result := false |} 20 |} 2.

(** A stale row (period start 0) next to a live one (period start 9000). *)
Definition staleAndLive : World :=
  worldOf (tasksOnly
             [ {| pt_task_id := 1; pt_identity := mkIdentity 1001 9000 0 0 |};
               {| pt_task_id := 2; pt_identity := mkIdentity 1001 0 2 0 |} ]) 3.

(** Task 7 with a row in [harmony_test]. *)
Definition oneTestTask : World :=
  worldOf {| wdpost_partition_tasks :=
               [ {| pt_task_id := 7; pt_identity := mkIdentity 1001 0 2 0 |} ];
             wdpost_proofs := [];
             harmony_test := [ {| ht_task_id := 7; ht_result := None |} ];
             harmony_task_history := [] |} 8.

End Scenario.

(** ** Further code of the package *)

(** *** The id list of the batched select *)

(** [lo.Map] with a callback that has no effect: the elements in slice
    order, each with its index. *)
Fixpoint lo_Map_from {A B} (f : A -> Z -> B) (idx : Z) (l : list A) : list B :=
  match l with
  | [] => []
  | a :: rest => f a idx :: lo_Map_from f (idx + 1) rest
  end.

Definition lo_Map {A B} (f : A -> Z -> B) (l : list A) : list B :=
  lo_Map_from f 0 l.

(** [entToStr] at a task id: [fmt.Sprint] of a Go [int], its decimal
    digits, after a minus sign when it is negative. The index is unused. *)
Definition entToStr (t : TaskID) (i : Z) : string :=
  DecimalString.NilZero.string_of_int (Z.to_int t).

(** [strings.Join(lo.Map(ids, entToStr), ",")], the argument of the select. *)
Definition idList (ids : list TaskID) : string :=
  String.concat "," (lo_Map entToStr ids).

Definition comma : Ascii.ascii := Ascii.ascii_of_nat 44.

(** The fields of a non-empty text between its commas. *)
Fixpoint split_at_commas (s : string) : list string :=
  match s with
  | EmptyString => [EmptyString]
  | String c rest =>
    if Ascii.eqb c comma then EmptyString :: split_at_commas rest
    else
      match split_at_commas rest with
      | field :: fields => String c field :: fields
      | [] => [String c EmptyString]
      end
  end.

(** SQL [string_to_array($1, ',')]: the empty text is the empty array. *)
Definition string_to_array (s : string) : list string :=
  match s with
  | EmptyString => []
  | _ => split_at_commas s
  end.

Definition in_int64 (z : Z) : bool :=
  (- Int64.half <=? z) && (z <=? Int64.max).

(** The cast [::bigint] of one field: an optional minus sign and decimal
    digits within the range of the type, an error otherwise. (The cast
    also reads a plus sign and blanks around the number; [entToStr] writes
    neither.) *)
Definition to_bigint (s : string) : option Z :=
  match DecimalString.NilZero.int_of_string s with
  | Some d => if in_int64 (Z.of_int d) then Some (Z.of_int d) else None
  | None => None
  end.

Fixpoint unnest_bigint (fields : list string) : option (list Z) :=
  match fields with
  | [] => Some []
  | f :: rest =>
    match to_bigint f, unnest_bigint rest with
    | Some z, Some zs => Some (z :: zs)
    | _, _ => None
    end
  end.

(** [SELECT unnest(string_to_array($1, ','))::bigint]: the ids the select
    compares [task_id] with, or nothing when a field does not cast. *)
Definition decodeIdList (param : string) : option (list Z) :=
  unnest_bigint (string_to_array param).

(** *** The resource claim *)

(** [storiface.Resources], as far as the package reads it. *)
Record Resources := mkResources {
  MinMemory : Z;
  MaxMemory : Z
}.

(** [storiface.ResourceTable[sealtasks.TTGenerateWindowPoSt]]: a Go map
    from seal proof type to resources, as its list of entries. Looking up
    a type that has no entry gives the zero value. *)
Definition ResourceTable := list (Z * Resources).

Definition res_at (res : ResourceTable) (k : Z) : Resources :=
  match find (fun e => fst e =? k) res with
  | Some e => snd e
  | None => {| MinMemory := 0; MaxMemory := 0 |}
  end.

(** The [lo.Reduce] of [TypeDetails] over [keys], the keys of the table in
    the order [lo.Keys] yields them, from the initial value [1 << 63]: the
    RAM the task type advertises for the capacity check. *)
Definition ramCapacity (res : ResourceTable) (keys : list Z) : Z :=
  fold_left (fun i k => if MaxMemory (res_at res k) <? i
                        then MaxMemory (res_at res k) else i)
            keys (2 ^ 63).

(** [api.MinerInfo], as far as [Claim] reads it. *)
Record MinerInfo := mkMinerInfo {
  WindowPoStProofType : Z;
  SectorSize : Z
}.

(** The receiver of [Claim]. [claim_query] is a failure of its one
    database query, [StateMinerInfo] the chain call the methods above do
    not make, [GetSealProofFromPoStProof] the mapping of the policy
    package. *)
Record wdPostRam := mkWdPostRam {
  claim_query : option error;
  Api : WDPoStAPI;
  StateMinerInfo : Address -> TipSetKey -> result MinerInfo;
  GetSealProofFromPoStProof : Z -> result Z;
  Ram : Z
}.

(** [Select sp_id from wdpost_partition_tasks where task_id = $1], scanned
    into a [uint64]. *)
Definition querySpID (r : wdPostRam) (taskID : TaskID) (st : Store) : result Z :=
  match claim_query r with
  | Some e => Fail e
  | None =>
    match find (fun row => pt_task_id row =? taskID) (wdpost_partition_tasks st) with
    | None => Fail ErrNoRows
    | Some row => scan_uint64 (SpID (pt_identity row))
    end
  end.

(** [wdPostRam.Claim] up to its last call: the number of bytes it hands to
    [resources.Ram(...).Claim], or the error it returns before. *)
Definition Claim (res : ResourceTable) (r : wdPostRam) (taskID : TaskID) (st : Store)
  : result Z :=
  match querySpID r taskID st with
  | Fail e => Fail e
  | Ok spID =>
    match NewIDAddress spID with
    | Fail e => Fail e
    | Ok maddr =>
      match ChainHead (Api r) with
      | Fail e => Fail e
      | Ok ts =>
        match StateMinerInfo r maddr (Key ts) with
        | Fail e => Fail e
        | Ok mi =>
          match GetSealProofFromPoStProof r (WindowPoStProofType mi) with
          | Fail e => Fail e
          | Ok spt => Ok (MaxMemory (res_at res spt))
          end
        end
      end
    end
  end.

(** *** Further observations *)

Definition is_write (s : Stmt) : bool :=
  match s with
  | UpdateHarmonyTest _ _ | InsertProof _ | InsertPartitionTask _ => true
  | _ => false
  end.

(** The deadline [Do] works with: the one computed at the head, moved one
    proving period back for a test task whose challenge epoch lies above
    the head. *)
Definition effective_deadline (pol : Policy) (pps dlIdx : Z) (head : TipSet)
    (isTest : bool) : dline.Info :=
  let deadline := NewDeadlineInfo pol (Int64.wrap pps) dlIdx (Height head) in
  if (Height head <? dline.Challenge deadline) && isTest
  then NewDeadlineInfo pol
         (Int64.sub (Int64.wrap pps) (dline.WPoStProvingPeriod deadline))
         dlIdx
         (Int64.sub (Height head) (dline.WPoStProvingPeriod deadline))
  else deadline.

(** The document of a test run. *)
Definition test_doc (spID pps partIdx : Z) (deadline : dline.Info) (postOut : PoSt)
    (msgbuf : list Byte.byte) : TestDoc :=
  {| doc_sp_id := spID;
     doc_proving_period_start := pps;
     doc_deadline := dline.Index deadline;
     doc_partition := partIdx;
     doc_submit_at_epoch := dline.Open deadline;
     doc_submit_by_epoch := dline.Close deadline;
     doc_post_out := postOut;
     doc_proof_params := msgbuf |}.

(** Protocol constants and epochs far from the bounds of [int64]. *)
Definition small_policy (pol : Policy) : Prop :=
  0 <= WPoStPeriodDeadlines pol < 2 ^ 30
  /\ 0 <= WPoStProvingPeriod pol < 2 ^ 30
  /\ 0 <= WPoStChallengeWindow pol < 2 ^ 30
  /\ 0 <= WPoStChallengeLookback pol < 2 ^ 30
  /\ 0 <= FaultDeclarationCutoff pol < 2 ^ 30.

Definition small_epoch (e : Z) : Prop := - 2 ^ 61 < e < 2 ^ 61.

(** No comma occurs in the text. *)
Fixpoint no_comma (s : string) : bool :=
  match s with
  | EmptyString => true
  | String c rest => negb (Ascii.eqb c comma) && no_comma rest
  end.

(** What a run of the watcher leaves of the world [w] it started in: the
    task table has gained rows with identities among [ids] and task ids
    taken from the sequence, and nothing else has changed. *)
Definition extends_with (ids : list wdTaskIdentity) (w w' : World) : Prop :=
  exists rows,
    wdpost_partition_tasks (store w') = wdpost_partition_tasks (store w) ++ rows
    /\ Forall (fun r => In (pt_identity r) ids
                        /\ task_seq w <= pt_task_id r < task_seq w') rows
    /\ wdpost_proofs (store w') = wdpost_proofs (store w)
    /\ harmony_test (store w') = harmony_test (store w)
    /\ harmony_task_history (store w') = harmony_task_history (store w)
    /\ calls w' = calls w
    /\ task_seq w <= task_seq w'.

(** A resource table with three sector sizes and a miner of the middle one. *)
Module RamScenario.

Definition table : ResourceTable :=
  [ (3, {| MinMemory := 2 ^ 30; MaxMemory := 2 ^ 30 |});
    (8, {| MinMemory := 30 * 2 ^ 30; MaxMemory := 96 * 2 ^ 30 |});
    (9, {| MinMemory := 60 * 2 ^ 30; MaxMemory := 120 * 2 ^ 30 |}) ].

Definition ram : wdPostRam :=
  {| claim_query := None;
     Api := Scenario.chain 120;
     StateMinerInfo := fun _ _ =>
       Ok {| WindowPoStProofType := 13; SectorSize := 2 ^ 35 |};
     GetSealProofFromPoStProof := fun p =>
       if p =? 13 then Ok 8 else Fail "proof type does not exist"%string;
     Ram := ramCapacity table [9; 3; 8] |}.

(** The task of the test scenarios with no task factory set. *)
Definition noFactory : WdPostTask :=
  mkWdPostTask (Scenario.chain 120) no_faults (Ok true) None
    [Scenario.minerB] 1 (fun _ _ _ _ => Ok Scenario.aProof)
    (fun _ => Ok []) (fun _ => Ok "{}"%string).

End RamScenario.

(** * Properties *)

(** ** Machine integers *)

Lemma wrap_in_range z : Int64.in_range z -> Int64.wrap z = z.
Proof.
  unfold Int64.in_range, Int64.wrap, Int64.max, Int64.half, Int64.modulus.
  intros H. rewrite Z.mod_small; lia.
Qed.

Lemma wrap_range z : Int64.in_range (Int64.wrap z).
Proof.
  unfold Int64.in_range, Int64.wrap, Int64.max, Int64.half, Int64.modulus.
  pose proof (Z.mod_pos_bound (z + 2 ^ 63) (2 ^ 64) ltac:(lia)). lia.
Qed.

(** With epochs of the size the chain has, the deadline arithmetic is exact. *)
Lemma NewDeadlineInfo_mainnet_exact pps idx h :
  0 <= pps < 2 ^ 40 -> 0 <= idx < 48 ->
  let d := NewDeadlineInfo mainnet pps idx h in
  dline.Open d = pps + idx * 60
  /\ dline.Close d = pps + idx * 60 + 60
  /\ dline.Challenge d = pps + idx * 60 - 20
  /\ dline.NextPeriodStart d = pps + 2880.
Proof.
  intros Hp Hi. cbn zeta.
  unfold NewDeadlineInfo, dline.NewInfo, dline.NextPeriodStart. cbn [mainnet
    WPoStPeriodDeadlines WPoStProvingPeriod WPoStChallengeWindow
    WPoStChallengeLookback FaultDeclarationCutoff].
  replace (idx <? 48) with true by (symmetry; apply Z.ltb_lt; lia).
  cbn [dline.Open dline.Close dline.Challenge dline.PeriodStart
       dline.WPoStProvingPeriod].
  unfold Int64.add, Int64.sub, Int64.mul.
  assert (R : forall z, - 2 ^ 62 <= z <= 2 ^ 62 -> Int64.wrap z = z).
  { intros z Hz. apply wrap_in_range.
    unfold Int64.in_range, Int64.max, Int64.half. lia. }
  rewrite (R idx) by lia. rewrite (R (idx * 60)) by lia.
  rewrite (R (pps + idx * 60)) by lia.
  rewrite !R by lia. repeat split.
Qed.

(** ** Statements leave a trace and nothing else *)

Lemma queryIdentity_world db taskID w :
  snd (queryIdentity db taskID w) = log_stmt (SelectIdentity taskID) w.
Proof.
  unfold queryIdentity.
  destruct (db_error db _); [reflexivity|].
  destruct (find _ _); [|reflexivity].
  repeat match goal with
         | |- context [scan_uint64 ?v] => destruct (scan_uint64 v)
         end; reflexivity.
Qed.

(** ** The closure [isTestTask] *)

Section IsTestTask.

Variables (R : Type) (t : WdPostTask) (taskID : TaskID).

Lemma isTestTask_memo c w :
  isTestTask (R:=R) t taskID (Some c) w = (inl (0 <? c, Some c), w).
Proof. reflexivity. Qed.

Lemma isTestTask_first w :
  isTestTask (R:=R) t taskID None w =
  (inl (match db_error (db t) (length (issued w)) with
        | Some _ => (false, Some 0)
        | None => (0 <? count_test_rows (store w) taskID,
                   Some (count_test_rows (store w) taskID))
        end),
   log_stmt (CountHarmonyTest taskID) w).
Proof.
  unfold isTestTask, queryTestCount.
  now destruct (db_error (db t) _).
Qed.

Lemma isTestTask_no_row w :
  count_test_rows (store w) taskID = 0 ->
  isTestTask (R:=R) t taskID None w =
  (inl (false, Some 0), log_stmt (CountHarmonyTest taskID) w).
Proof.
  intros H0. rewrite isTestTask_first, H0.
  now destruct (db_error (db t) _).
Qed.

End IsTestTask.

Ltac do_steps :=
  unfold Do, run, bind, orReturn, pure, lift, ret, exit, failWith, callDoPartition.

(** ** Stale reap *)

(** C2. A task whose identity row is found, whose deadline at the current
    head has its period elapsed and which has no row in [harmony_test]:
    [Do] returns done without error, leaves every table as it was (no row
    in [wdpost_proofs], [harmony_test] untouched), never calls the proof
    generator, and has only read the database. *)
Theorem Do_reaps_stale_task pol t taskID w spID pps dlIdx partIdx head :
  fst (queryIdentity (db t) taskID w) = Ok (spID, pps, dlIdx, partIdx) ->
  ChainHead (api t) = Ok head ->
  dline.PeriodElapsed (NewDeadlineInfo pol (Int64.wrap pps) dlIdx (Height head)) = true ->
  count_test_rows (store w) taskID = 0 ->
  fst (Do pol t taskID w) = (true, None)
  /\ store (snd (Do pol t taskID w)) = store w
  /\ calls (snd (Do pol t taskID w)) = calls w
  /\ issued (snd (Do pol t taskID w)) =
     issued w ++ [SelectIdentity taskID; CountHarmonyTest taskID].
Proof.
  intros Hq Hh Hel Hc.
  pose proof (queryIdentity_world (db t) taskID w) as Hw.
  destruct (queryIdentity (db t) taskID w) as [q w1] eqn:Eq.
  simpl in Hq, Hw. subst q w1.
  pose proof (isTestTask_no_row DoResult t taskID
                (log_stmt (SelectIdentity taskID) w) Hc) as Hfirst.
  do_steps. rewrite Eq; cbv beta iota. rewrite Hh; cbv beta iota.
  rewrite Hel; cbv beta iota. rewrite Hfirst. cbn.
  rewrite <- app_assoc. repeat split.
Qed.

Lemma Do_reaps_stale_task_witness :
  fst (Do mainnet (Scenario.task 10000 no_faults) 7 Scenario.oneTask) = (true, None)
  /\ store (snd (Do mainnet (Scenario.task 10000 no_faults) 7 Scenario.oneTask))
     = store Scenario.oneTask.
Proof.
  pose proof (Do_reaps_stale_task mainnet (Scenario.task 10000 no_faults) 7
                Scenario.oneTask 1001 0 2 0 (Scenario.headAt 10000)
                eq_refl eq_refl eq_refl eq_refl) as H.
  split; [exact (proj1 H) | exact (proj1 (proj2 H))].
Defined.

Ltac step H := rewrite H; cbv beta iota.

(** ** The live path *)

Section LivePath.

Variables (pol : Policy) (t : WdPostTask) (taskID : TaskID) (w : World).
Variables (spID pps dlIdx partIdx : Z) (head : TipSet) (maddr : Address).

Let deadline := NewDeadlineInfo pol (Int64.wrap pps) dlIdx (Height head).

Hypothesis Hidentity :
  fst (queryIdentity (db t) taskID w) = Ok (spID, pps, dlIdx, partIdx).
Hypothesis Hhead : ChainHead (api t) = Ok head.
Hypothesis Hlive : dline.PeriodElapsed deadline = false.
Hypothesis Hnotest : count_test_rows (store w) taskID = 0.
Hypothesis Haddr : NewIDAddress spID = Ok maddr.

Let w1 := log_stmt (SelectIdentity taskID) w.
Let w2 := log_stmt (CountHarmonyTest taskID) w1.

Lemma live_identity :
  queryIdentity (db t) taskID w = (Ok (spID, pps, dlIdx, partIdx), w1).
Proof.
  pose proof (queryIdentity_world (db t) taskID w) as Hw.
  destruct (queryIdentity (db t) taskID w) as [q w']. simpl in *. now subst.
Qed.



Variables (ts : TipSet) (postOut : PoSt) (msgbuf : list Byte.byte).

Hypothesis Hts :
  ChainGetTipSetAfterHeight (api t) (dline.Challenge deadline) (Key head) = Ok ts.
Hypothesis Hproof : DoPartition t ts maddr deadline partIdx = Ok postOut.
Hypothesis Hcbor : MarshalCBOR t postOut = Ok msgbuf.

Let row := proof_row spID pps partIdx deadline msgbuf.
Let n := (length (issued w) + 2)%nat.

Lemma Do_live_insert :
  Do pol t taskID w =
  let w3 := log_stmt (InsertProof row)
              (log_call (CallDoPartition ts maddr deadline partIdx) w2) in
  match db_error (db t) n with
  | Some e => ((false, Some e), w3)
  | None =>
    if db_discards (db t) n then ((false, None), w3)
    else ((true, None), set_store (add_proof row (store w)) w3)
  end.
Proof.
  do_steps. step live_identity. step Hhead.
  fold deadline. step Hlive.
  pose proof (isTestTask_no_row DoResult t taskID w1 Hnotest) as Hfirst.
  assert (Hlater : forall c,
    isTestTask (R:=DoResult) t taskID None (log_call c w1)
    = (inl (false, Some 0), log_stmt (CountHarmonyTest taskID) (log_call c w1))).
  { intros c. now apply isTestTask_no_row. }
  destruct (Height head <? dline.Challenge deadline).
  - step Hfirst. step Haddr. step Hts. step Hproof. step Hcbor.
    rewrite isTestTask_memo; change (0 <? 0) with false; cbv beta iota.
    unfold execInsertProof.
    match goal with
    | |- context [db_error (db t) ?k] =>
      tryif constr_eq k n then fail
      else replace k with n by (unfold n, w1; cbn; rewrite !length_app; cbn; lia)
    end.
    fold row. unfold w2, w1.
    destruct (db_error (db t) n); [reflexivity|].
    destruct (db_discards (db t) n); reflexivity.
  - step Haddr. step Hts. step Hproof. step Hcbor.
    step Hlater. unfold execInsertProof.
    match goal with
    | |- context [db_error (db t) ?k] =>
      tryif constr_eq k n then fail
      else replace k with n by (unfold n, w1; cbn; rewrite !length_app; cbn; lia)
    end.
    fold row. unfold w2, w1.
    destruct (db_error (db t) n); [reflexivity|].
    destruct (db_discards (db t) n); reflexivity.
Qed.

End LivePath.

(** C6 (amended). On the live path of a task that is not a test task, after
    a successful proof generation [Do] issues exactly one insert into
    [wdpost_proofs]: when it stores the row, [Do] reports done and the table
    has gained exactly that row; when it affects zero rows, [Do] reports not
    done and has written nothing, and this is an ordinary failure, which the
    runtime answers by offering the task again while the failures recorded
    for it stay below [MaxFailures]. *)
Theorem Do_live_path_persists pol t taskID w spID pps dlIdx partIdx head maddr
    ts postOut msgbuf :
  let deadline := NewDeadlineInfo pol (Int64.wrap pps) dlIdx (Height head) in
  let row := proof_row spID pps partIdx deadline msgbuf in
  let n := (length (issued w) + 2)%nat in
  fst (queryIdentity (db t) taskID w) = Ok (spID, pps, dlIdx, partIdx) ->
  ChainHead (api t) = Ok head ->
  dline.PeriodElapsed deadline = false ->
  count_test_rows (store w) taskID = 0 ->
  NewIDAddress spID = Ok maddr ->
  ChainGetTipSetAfterHeight (api t) (dline.Challenge deadline) (Key head) = Ok ts ->
  DoPartition t ts maddr deadline partIdx = Ok postOut ->
  MarshalCBOR t postOut = Ok msgbuf ->
  issued (snd (Do pol t taskID w)) =
    issued w ++ [SelectIdentity taskID; CountHarmonyTest taskID; InsertProof row]
  /\ (db_error (db t) n = None -> db_discards (db t) n = false ->
      fst (Do pol t taskID w) = (true, None)
      /\ wdpost_proofs (store (snd (Do pol t taskID w))) = wdpost_proofs (store w) ++ [row]
      /\ harmony_test (store (snd (Do pol t taskID w))) = harmony_test (store w))
  /\ (db_error (db t) n = None -> db_discards (db t) n = true ->
      fst (fst (Do pol t taskID w)) = false
      /\ store (snd (Do pol t taskID w)) = store w
      /\ forall prior, prior + 1 < harmonytask.MaxFailures (TypeDetails t) ->
           fate_after_Do (TypeDetails t) prior (fst (Do pol t taskID w)) = OfferedAgain)
  /\ (forall e, db_error (db t) n = Some e ->
      fst (Do pol t taskID w) = (false, Some e)
      /\ store (snd (Do pol t taskID w)) = store w).
Proof.
  intros deadline row n Hid Hhead Hlive Hnotest Haddr Hts Hproof Hcbor.
  rewrite (Do_live_insert pol t taskID w spID pps dlIdx partIdx head maddr
             Hid Hhead Hlive Hnotest Haddr ts postOut msgbuf Hts Hproof Hcbor).
  fold deadline row n. cbv zeta.
  split.
  { destruct (db_error (db t) n); [|destruct (db_discards (db t) n)];
      cbn; now rewrite <- !app_assoc. }
  split; [|split].
  - intros -> ->. repeat split.
  - intros -> ->. cbn. repeat split.
    intros prior Hprior. unfold fate_after_Do. cbn [fst].
    destruct (_ <=? _) eqn:E; [|reflexivity].
    apply Z.leb_le in E. lia.
  - intros e ->. repeat split.
Qed.

Lemma Do_live_path_persists_witness :
  fst (Do mainnet (Scenario.task 150 no_faults) 7 Scenario.oneTask) = (true, None)
  /\ wdpost_proofs (store (snd (Do mainnet (Scenario.task 150 no_faults) 7 Scenario.oneTask)))
     = [proof_row 1001 0 0 (NewDeadlineInfo mainnet 0 2 150) []].
Proof.
  pose proof (Do_live_path_persists mainnet (Scenario.task 150 no_faults) 7
                Scenario.oneTask 1001 0 2 0 (Scenario.headAt 150) (IDAddr 1001)
                {| Height := 100; Key := ["challenge"%string] |} Scenario.aProof []
                eq_refl eq_refl eq_refl eq_refl eq_refl eq_refl eq_refl eq_refl) as H.
  destruct H as (_ & H & _). destruct (H eq_refl eq_refl) as (H1 & H2 & _).
  split; [exact H1 | exact H2].
Defined.

(** C6, as stated, fails: an insert into [wdpost_proofs] that affects zero
    rows makes [Do] report not done, and a task that is not done after its
    first failure is offered again, not retired. *)
Lemma Do_zero_row_insert_is_retried :
  fst (fst (Do mainnet (Scenario.task 150 Scenario.thirdDiscarded) 7 Scenario.oneTask))
  = false
  /\ issued (snd (Do mainnet (Scenario.task 150 Scenario.thirdDiscarded) 7 Scenario.oneTask))
     = [SelectIdentity 7; CountHarmonyTest 7;
        InsertProof (proof_row 1001 0 0 (NewDeadlineInfo mainnet 0 2 150) [])]
  /\ wdpost_proofs
       (store (snd (Do mainnet (Scenario.task 150 Scenario.thirdDiscarded) 7 Scenario.oneTask)))
     = []
  /\ fate_after_Do (TypeDetails (Scenario.task 150 Scenario.thirdDiscarded)) 0
       (fst (Do mainnet (Scenario.task 150 Scenario.thirdDiscarded) 7 Scenario.oneTask))
     = OfferedAgain.
Proof. repeat split. Qed.






(** ** Every path of [Do] *)

Ltac unfold_do :=
  unfold Do, run, bind, orReturn, pure, lift, isTestTask, ret, exit, failWith,
    callDoPartition, queryIdentity, queryTestCount, execUpdateTest, execInsertProof.

(** Case analysis on the innermost scrutinee the goal still branches on. *)
Ltac split_match :=
  match goal with
  | |- context [match ?x with _ => _ end] =>
    lazymatch x with
    | context [match _ with _ => _ end] => fail
    | _ => first [is_var x; destruct x | let E := fresh "E" in destruct x eqn:E]
    end
  end.

Lemma Do_failure_store pol t taskID w e w' :
  Do pol t taskID w = ((false, Some e), w') -> store w' = store w.
Proof.
  unfold_do.
  repeat (split_match; cbn [fst snd]); intros H; inversion H; subst; reflexivity.
Qed.

Lemma Do_issues pol t taskID w :
  exists l, issued (snd (Do pol t taskID w)) = issued w ++ l
            /\ (test_queries l <= 1)%nat.
Proof.
  unfold_do.
  repeat (split_match; cbn [fst snd]);
    cbn [snd issued log_stmt log_call set_store]; rewrite <- ?app_assoc;
    eexists; (split; [reflexivity|]); cbn; lia.
Qed.

Lemma Do_failed_test_query pol t taskID w e :
  db_error (db t) (S (length (issued w))) = Some e ->
  harmony_test (store (snd (Do pol t taskID w))) = harmony_test (store w).
Proof.
  intros He. unfold_do.
  repeat (split_match; cbn [fst snd]);
    cbn [snd store log_stmt log_call set_store add_proof harmony_test];
    try reflexivity; exfalso;
    repeat match goal with
           | E : db_error _ _ = _ |- _ =>
             cbn [issued log_stmt log_call] in E; rewrite ?length_app in E;
             cbn [length] in E; rewrite ?Nat.add_1_r in E; revert E
           end; intros; solve [congruence | cbn in *; congruence].
Qed.

(** C9. Whenever [Do] returns not done together with an error, whatever the
    step that failed, the tables are as they were: no row was added to
    [wdpost_proofs] and [harmony_test] was not updated. *)
Theorem Do_failure_changes_nothing pol t taskID w e :
  fst (Do pol t taskID w) = (false, Some e) ->
  wdpost_proofs (store (snd (Do pol t taskID w))) = wdpost_proofs (store w)
  /\ harmony_test (store (snd (Do pol t taskID w))) = harmony_test (store w)
  /\ store (snd (Do pol t taskID w)) = store w.
Proof.
  intros H.
  assert (Hst : store (snd (Do pol t taskID w)) = store w).
  { destruct (Do pol t taskID w) as [r w'] eqn:E. cbn in H. subst r.
    exact (Do_failure_store pol t taskID w e w' E). }
  now rewrite Hst.
Qed.

Lemma Do_failure_changes_nothing_witness :
  wdpost_proofs (store (snd (Do mainnet (Scenario.task 150 no_faults) 99 Scenario.oneTask)))
  = wdpost_proofs (store Scenario.oneTask)
  /\ harmony_test (store (snd (Do mainnet (Scenario.task 150 no_faults) 99 Scenario.oneTask)))
     = harmony_test (store Scenario.oneTask)
  /\ store (snd (Do mainnet (Scenario.task 150 no_faults) 99 Scenario.oneTask))
     = store Scenario.oneTask.
Proof.
  exact (Do_failure_changes_nothing mainnet (Scenario.task 150 no_faults) 99
           Scenario.oneTask ErrNoRows eq_refl).
Defined.

(** A stale task is reaped when the test-row query fails, whether or not a
    row for it exists in [harmony_test]. *)
Lemma Do_failed_test_query_reaps pol t taskID w spID pps dlIdx partIdx head e :
  fst (queryIdentity (db t) taskID w) = Ok (spID, pps, dlIdx, partIdx) ->
  ChainHead (api t) = Ok head ->
  dline.PeriodElapsed (NewDeadlineInfo pol (Int64.wrap pps) dlIdx (Height head)) = true ->
  db_error (db t) (S (length (issued w))) = Some e ->
  fst (Do pol t taskID w) = (true, None).
Proof.
  intros Hq Hh Hel He.
  pose proof (queryIdentity_world (db t) taskID w) as Hw.
  destruct (queryIdentity (db t) taskID w) as [q w1] eqn:Eq.
  simpl in Hq, Hw. subst q w1.
  do_steps. step Eq. step Hh. step Hel.
  rewrite isTestTask_first. cbn [issued log_stmt].
  rewrite length_app, Nat.add_1_r. cbn [length]. now rewrite He.
Qed.

(** *** The live path when the test-row query fails *)

Section FailedTestQuery.

Variables (pol : Policy) (t : WdPostTask) (taskID : TaskID) (w : World).
Variables (spID pps dlIdx partIdx : Z) (head : TipSet) (maddr : Address).
Variables (e : error) (ts : TipSet) (postOut : PoSt) (msgbuf : list Byte.byte).

Let deadline := NewDeadlineInfo pol (Int64.wrap pps) dlIdx (Height head).

Hypothesis Hidentity :
  fst (queryIdentity (db t) taskID w) = Ok (spID, pps, dlIdx, partIdx).
Hypothesis Hhead : ChainHead (api t) = Ok head.
Hypothesis Hlive : dline.PeriodElapsed deadline = false.
Hypothesis Hfail : db_error (db t) (S (length (issued w))) = Some e.
Hypothesis Haddr : NewIDAddress spID = Ok maddr.
Hypothesis Hts :
  ChainGetTipSetAfterHeight (api t) (dline.Challenge deadline) (Key head) = Ok ts.
Hypothesis Hproof : DoPartition t ts maddr deadline partIdx = Ok postOut.
Hypothesis Hcbor : MarshalCBOR t postOut = Ok msgbuf.

Let w1 := log_stmt (SelectIdentity taskID) w.
Let w2 := log_stmt (CountHarmonyTest taskID) w1.
Let row := proof_row spID pps partIdx deadline msgbuf.
Let n := (length (issued w) + 2)%nat.

(** Wherever in the run the query is first issued, it is the second
    statement, and its failure classifies the task as not a test task. *)
Lemma failed_query_classifies w' :
  issued w' = issued w1 ->
  isTestTask (R:=DoResult) t taskID None w'
  = (inl (false, Some 0), log_stmt (CountHarmonyTest taskID) w').
Proof.
  intros Hi. rewrite isTestTask_first, Hi. unfold w1. cbn [issued log_stmt].
  rewrite length_app, Nat.add_1_r. cbn [length]. now rewrite Hfail.
Qed.

(** The run goes on to the proof generator and to the insert into
    [wdpost_proofs], whether or not [harmony_test] has a row for the task
    and whether the query was issued before or after the proof. *)
Lemma Do_failed_test_query_live :
  Do pol t taskID w =
  let w3 := log_stmt (InsertProof row)
              (log_call (CallDoPartition ts maddr deadline partIdx) w2) in
  match db_error (db t) n with
  | Some e' => ((false, Some e'), w3)
  | None =>
    if db_discards (db t) n then ((false, None), w3)
    else ((true, None), set_store (add_proof row (store w)) w3)
  end.
Proof.
  pose proof (live_identity t taskID w spID pps dlIdx partIdx Hidentity) as Hq.
  cbv zeta in Hq. fold w1 in Hq.
  do_steps. step Hq. step Hhead.
  fold deadline. step Hlive.
  pose proof (failed_query_classifies w1 eq_refl) as Hfirst.
  assert (Hlater : forall c,
    isTestTask (R:=DoResult) t taskID None (log_call c w1)
    = (inl (false, Some 0), log_stmt (CountHarmonyTest taskID) (log_call c w1))).
  { intros c. now apply failed_query_classifies. }
  destruct (Height head <? dline.Challenge deadline).
  - step Hfirst. step Haddr. step Hts. step Hproof. step Hcbor.
    rewrite isTestTask_memo; change (0 <? 0) with false; cbv beta iota.
    unfold execInsertProof.
    match goal with
    | |- context [db_error (db t) ?k] =>
      tryif constr_eq k n then fail
      else replace k with n by (unfold n, w1; cbn; rewrite !length_app; cbn; lia)
    end.
    fold row. unfold w2, w1.
    destruct (db_error (db t) n); [reflexivity|].
    destruct (db_discards (db t) n); reflexivity.
  - step Haddr. step Hts. step Hproof. step Hcbor.
    step Hlater. unfold execInsertProof.
    match goal with
    | |- context [db_error (db t) ?k] =>
      tryif constr_eq k n then fail
      else replace k with n by (unfold n, w1; cbn; rewrite !length_app; cbn; lia)
    end.
    fold row. unfold w2, w1.
    destruct (db_error (db t) n); [reflexivity|].
    destruct (db_discards (db t) n); reflexivity.
Qed.

End FailedTestQuery.

(** C10. A failing test-row query makes [isTestTask] answer false and go
    on, leaving a zero behind the pointer; whatever a first call answered,
    every later call answers the same without asking the database. In [Do]
    the query is therefore issued at most once; when it fails, [Do] never
    takes the test path ([harmony_test] stays as it was), a stale task is
    reaped instead of the error being returned, and a live task is proved
    and handled as a task for the chain, even when [harmony_test] has a row
    for it: the proof generator is called, the one write is the insert into
    [wdpost_proofs], the query is not asked a second time, and what [Do]
    returns is the outcome of that insert, never the error of the query. *)
Theorem isTestTask_failure_is_memoized pol t taskID :
  (forall w e, db_error (db t) (length (issued w)) = Some e ->
     isTestTask (R:=DoResult) t taskID None w
     = (inl (false, Some 0), log_stmt (CountHarmonyTest taskID) w))
  /\ (forall w1 w1' b m,
        isTestTask (R:=DoResult) t taskID None w1 = (inl (b, m), w1') ->
        forall w2, isTestTask (R:=DoResult) t taskID m w2 = (inl (b, m), w2))
  /\ (forall w, exists l,
        issued (snd (Do pol t taskID w)) = issued w ++ l
        /\ (test_queries l <= 1)%nat)
  /\ (forall w e, db_error (db t) (S (length (issued w))) = Some e ->
        harmony_test (store (snd (Do pol t taskID w))) = harmony_test (store w))
  /\ (forall w spID pps dlIdx partIdx head e,
        fst (queryIdentity (db t) taskID w) = Ok (spID, pps, dlIdx, partIdx) ->
        ChainHead (api t) = Ok head ->
        dline.PeriodElapsed
          (NewDeadlineInfo pol (Int64.wrap pps) dlIdx (Height head)) = true ->
        db_error (db t) (S (length (issued w))) = Some e ->
        fst (Do pol t taskID w) = (true, None))
  /\ (forall w spID pps dlIdx partIdx head maddr ts postOut msgbuf e,
        let deadline := NewDeadlineInfo pol (Int64.wrap pps) dlIdx (Height head) in
        let row := proof_row spID pps partIdx deadline msgbuf in
        let n := (length (issued w) + 2)%nat in
        fst (queryIdentity (db t) taskID w) = Ok (spID, pps, dlIdx, partIdx) ->
        ChainHead (api t) = Ok head ->
        dline.PeriodElapsed deadline = false ->
        db_error (db t) (S (length (issued w))) = Some e ->
        NewIDAddress spID = Ok maddr ->
        ChainGetTipSetAfterHeight (api t) (dline.Challenge deadline) (Key head)
        = Ok ts ->
        DoPartition t ts maddr deadline partIdx = Ok postOut ->
        MarshalCBOR t postOut = Ok msgbuf ->
        calls (snd (Do pol t taskID w)) =
          calls w ++ [CallDoPartition ts maddr deadline partIdx]
        /\ issued (snd (Do pol t taskID w)) =
             issued w ++ [SelectIdentity taskID; CountHarmonyTest taskID;
                          InsertProof row]
        /\ fst (Do pol t taskID w) =
             match db_error (db t) n with
             | Some e' => (false, Some e')
             | None => (negb (db_discards (db t) n), None)
             end
        /\ (db_error (db t) n = None -> db_discards (db t) n = false ->
            wdpost_proofs (store (snd (Do pol t taskID w)))
            = wdpost_proofs (store w) ++ [row])).
Proof.
  split; [|split; [|split; [|split; [|split]]]].
  - intros w e He. rewrite isTestTask_first. now rewrite He.
  - intros w1 w1' b m H w2. rewrite isTestTask_first in H.
    destruct (db_error (db t) _); injection H as <- <- _; reflexivity.
  - apply Do_issues.
  - apply Do_failed_test_query.
  - apply Do_failed_test_query_reaps.
  - intros w spID pps dlIdx partIdx head maddr ts postOut msgbuf e deadline row n
           Hid Hhead Hlive Hfail Haddr Hts Hproof Hcbor.
    rewrite (Do_failed_test_query_live pol t taskID w spID pps dlIdx partIdx head
               maddr e ts postOut msgbuf Hid Hhead Hlive Hfail Haddr Hts Hproof Hcbor).
    fold deadline row n. cbv zeta.
    destruct (db_error (db t) n); [|destruct (db_discards (db t) n)];
      cbn; rewrite <- ?app_assoc; repeat split; intros; congruence.
Qed.

Lemma isTestTask_failure_is_memoized_witness :
  count_test_rows (store Scenario.oneTestTask) 7 = 1
  /\ db_error Scenario.secondFails 1 = Some "connection reset"%string
  /\ fst (Do mainnet (Scenario.task 150 Scenario.secondFails) 7 Scenario.oneTestTask)
     = (true, None)
  /\ wdpost_proofs
       (store (snd (Do mainnet (Scenario.task 150 Scenario.secondFails) 7
                      Scenario.oneTestTask)))
     = [proof_row 1001 0 0 (NewDeadlineInfo mainnet 0 2 150) []]
  /\ harmony_test
       (store (snd (Do mainnet (Scenario.task 150 Scenario.secondFails) 7
                      Scenario.oneTestTask)))
     = harmony_test (store Scenario.oneTestTask).
Proof.
  destruct (isTestTask_failure_is_memoized mainnet
              (Scenario.task 150 Scenario.secondFails) 7)
    as (_ & _ & _ & Htest & _ & Hlive).
  destruct (Hlive Scenario.oneTestTask 1001 0 2 0 (Scenario.headAt 150) (IDAddr 1001)
              {| Height := 100; Key := ["challenge"%string] |} Scenario.aProof []
              "connection reset"%string
              eq_refl eq_refl eq_refl eq_refl eq_refl eq_refl eq_refl eq_refl)
    as (_ & _ & Hr & Hrow).
  split; [reflexivity|]. split; [reflexivity|]. split; [exact Hr|].
  split; [exact (Hrow eq_refl eq_refl)|].
  exact (Htest Scenario.oneTestTask "connection reset"%string eq_refl).
Defined.

(** A task with a row in [harmony_test], run while the test-row query
    fails: it is handled as a task for the chain, its proof lands in
    [wdpost_proofs] and [harmony_test] keeps its empty result. *)
Example Do_failed_test_query_example :
  count_test_rows (store Scenario.oneTestTask) 7 = 1
  /\ fst (Do mainnet (Scenario.task 150 Scenario.secondFails) 7 Scenario.oneTestTask)
     = (true, None)
  /\ length (wdpost_proofs
       (store (snd (Do mainnet (Scenario.task 150 Scenario.secondFails) 7
                      Scenario.oneTestTask)))) = 1%nat
  /\ harmony_test
       (store (snd (Do mainnet (Scenario.task 150 Scenario.secondFails) 7
                      Scenario.oneTestTask)))
     = [ {| ht_task_id := 7; ht_result := None |} ].
Proof. repeat split. Qed.

(** The same task with a database that answers: the test path. *)
Example Do_test_task_example :
  fst (Do mainnet (Scenario.task 150 no_faults) 7 Scenario.oneTestTask) = (true, None)
  /\ wdpost_proofs
       (store (snd (Do mainnet (Scenario.task 150 no_faults) 7 Scenario.oneTestTask))) = []
  /\ harmony_test
       (store (snd (Do mainnet (Scenario.task 150 no_faults) 7 Scenario.oneTestTask)))
     = [ {| ht_task_id := 7; ht_result := Some "{}"%string |} ].
Proof. repeat split. Qed.

(** ** The admitter *)

Lemma bid_for_eq db len d idx w :
  bid_for db len d idx w =
  ({| harmonytask.TaskID := TaskDef.TaskID d;
      harmonytask.Bid := len + 10 - idx
                         - penalty db (store w) (length (issued w)) (TaskDef.TaskID d) |},
   log_stmt (CountFailures (TaskDef.TaskID d)) w).
Proof.
  unfold bid_for, queryFailureCount, penalty.
  now destruct (db_error db _).
Qed.

Lemma mapWithIndex_bids db len l : forall idx w,
  length (fst (mapWithIndex (bid_for db len) idx l w)) = length l
  /\ map harmonytask.TaskID (fst (mapWithIndex (bid_for db len) idx l w))
     = map TaskDef.TaskID l
  /\ forall i d, nth_error l i = Some d ->
       nth_error (fst (mapWithIndex (bid_for db len) idx l w)) i =
       Some {| harmonytask.TaskID := TaskDef.TaskID d;
               harmonytask.Bid :=
                 len + 10 - (idx + Z.of_nat i)
                 - penalty db (store w) (length (issued w) + i) (TaskDef.TaskID d) |}.
Proof.
  induction l as [|a l IH]; intros idx w.
  - repeat split. intros [|i] d; discriminate.
  - cbn [mapWithIndex]. rewrite bid_for_eq.
    specialize (IH (idx + 1) (log_stmt (CountFailures (TaskDef.TaskID a)) w)).
    destruct (mapWithIndex _ _ l _) as [bs w2]. cbn [fst] in *.
    destruct IH as (Hlen & Hids & Hnth).
    split; [cbn; now rewrite Hlen|].
    split; [cbn; now rewrite Hids|].
    intros [|i] d Hd; cbn in Hd |- *.
    + injection Hd as <-. rewrite Z.add_0_r, Nat.add_0_r. reflexivity.
    + rewrite (Hnth i d Hd). cbn [issued log_stmt store].
      rewrite length_app. cbn [length].
      replace (idx + 1 + Z.of_nat i) with (idx + Z.of_nat (S i)) by lia.
      replace (length (issued w) + 1 + i)%nat with (length (issued w) + S i)%nat by lia.
      reflexivity.
Qed.

Lemma scan_rows_task_ids l : forall rows,
  scan_rows l = Ok rows ->
  map (fun r => let '(tid, _, _, _, _) := r in tid) rows = map pt_task_id l.
Proof.
  induction l as [|r l IH]; intros rows; cbn.
  - now intros [= <-].
  - unfold scan_task_row.
    destruct (scan_uint64 (SpID _)); [|discriminate].
    destruct (scan_uint64 (DeadlineIndex _)); [|discriminate].
    destruct (scan_uint64 (PartitionIndex _)); [|discriminate].
    destruct (scan_rows l) as [xs|]; [|discriminate].
    intros [= <-]. cbn. now rewrite (IH xs eq_refl).
Qed.

Lemma NoDup_map_filter {A B} (f : A -> B) (p : A -> bool) l :
  NoDup (map f l) -> NoDup (map f (filter p l)).
Proof.
  induction l as [|a l IH]; cbn; [trivial|].
  intros H. inversion H as [|? ? Hn Hd]; subst.
  destruct (p a); [|now apply IH]. cbn. constructor; [|now apply IH].
  intros Hin. apply Hn. apply in_map_iff in Hin as (x & Hx & Hin).
  apply in_map_iff. exists x. split; [exact Hx|]. now apply filter_In in Hin.
Qed.

Lemma NoDup_map_eq {A B} (f : A -> B) l x y :
  NoDup (map f l) -> In x l -> In y l -> f x = f y -> x = y.
Proof.
  induction l as [|a l IH]; cbn; [tauto|].
  intros H. inversion H as [|? ? Hn Hd]; subst.
  intros [->|Hx] [->|Hy] Hf; trivial.
  - exfalso. apply Hn. rewrite Hf. now apply in_map.
  - exfalso. apply Hn. rewrite <- Hf. now apply in_map.
  - now apply IH.
Qed.

Lemma hydrated_task_ids pol t ids w :
  NoDup (map pt_task_id (wdpost_partition_tasks (store w))) ->
  NoDup (map TaskDef.TaskID (hydrated pol t ids w)).
Proof.
  intros Hnd. unfold hydrated.
  destruct (ChainHead (api t)) as [ts|]; [|constructor].
  destruct (scan_rows _) as [rows|] eqn:E; [|constructor].
  apply scan_rows_task_ids in E.
  rewrite map_map.
  replace (map _ rows) with (map pt_task_id (rows_in ids (store w))).
  - now apply NoDup_map_filter.
  - rewrite <- E. apply map_ext. now intros [[[[tid sp] pps] dl] part].
Qed.

Lemma sortSlice_nil (srt : SliceSorter) A (less : A -> A -> bool) :
  sortSlice srt less [] = [].
Proof. apply Permutation_nil, sortSlice_perm. Qed.

Section Admitter.

Variables (pol : Policy) (srt : SliceSorter) (t : WdPostTask).
Variables (ids : list TaskID) (w : World).

Let tasks := hydrated pol t ids w.
Let bids := fst (fst (CanAccept pol srt t ids w)).

(** What [CanAccept] returns once the parameters are ready and the batched
    select went through. *)
Lemma CanAccept_admitted :
  paramsReady t = Ok true ->
  db_error (db t) (length (issued w)) = None ->
  bids =
  if existsb is_stale tasks then map stale_bid (filter is_stale tasks)
  else fst (mapWithIndex (bid_for (db t) (Z.of_nat (length tasks))) 0
              (sortSlice srt by_open tasks) (log_stmt (SelectTasks ids) w)).
Proof.
  intros Hready Hdb. unfold bids, tasks, hydrated, CanAccept, selectTasks.
  rewrite Hready, Hdb.
  destruct (ChainHead (api t)) as [ts|e]; [|now rewrite sortSlice_nil].
  destruct (scan_rows _) as [rows|e]; [|now rewrite sortSlice_nil].
  set (l := map (with_dlInfo pol (Height ts)) rows).
  assert (Hex : existsb is_stale l = (0 <? length (filter is_stale l))%nat).
  { induction l as [|a l' IH]; [reflexivity|]. cbn.
    destruct (is_stale a); [reflexivity|exact IH]. }
  rewrite Hex. destruct (0 <? length (filter is_stale l))%nat; [reflexivity|].
  fold by_open.
  replace (length (sortSlice srt by_open l)) with (length l)
    by (apply Permutation_length, sortSlice_perm).
  now destruct (mapWithIndex _ _ _ _).
Qed.

(** Whatever the outcome, nothing is returned unless the parameters are
    ready and the select went through. *)
Lemma CanAccept_declined :
  paramsReady t <> Ok true \/ db_error (db t) (length (issued w)) <> None ->
  bids = [].
Proof.
  unfold bids, CanAccept, selectTasks.
  destruct (paramsReady t) as [[|]|e]; try reflexivity.
  destruct (ChainHead (api t)); [|reflexivity].
  destruct (db_error (db t) _); [reflexivity|].
  intros [H|H]; congruence.
Qed.

Lemma CanAccept_bids_cases :
  bids = [] \/ (paramsReady t = Ok true /\ db_error (db t) (length (issued w)) = None).
Proof.
  destruct (paramsReady t) as [[|]|e] eqn:Hp;
    try (left; apply CanAccept_declined; left; congruence).
  destruct (db_error (db t) (length (issued w))) eqn:Hd;
    [left; apply CanAccept_declined; right; congruence|].
  right. now split.
Qed.

Lemma CanAccept_stale_pairs :
  existsb is_stale tasks = true ->
  forall b, In b bids ->
    exists d, In d tasks /\ is_stale d = true /\ b = stale_bid d.
Proof.
  intros Hstale b Hb. destruct CanAccept_bids_cases as [Hnil|[Hp Hd]].
  - rewrite Hnil in Hb. destruct Hb.
  - rewrite (CanAccept_admitted Hp Hd), Hstale in Hb.
    apply in_map_iff in Hb as (d & <- & Hd').
    apply filter_In in Hd'. now exists d.
Qed.

Lemma CanAccept_live_pairs :
  paramsReady t = Ok true ->
  db_error (db t) (length (issued w)) = None ->
  forallb is_live tasks = true ->
  bids = fst (mapWithIndex (bid_for (db t) (Z.of_nat (length tasks))) 0
                (sortSlice srt by_open tasks) (log_stmt (SelectTasks ids) w)).
Proof.
  intros Hp Hd Hlive. rewrite (CanAccept_admitted Hp Hd).
  replace (existsb is_stale tasks) with false; [reflexivity|].
  symmetry. apply not_true_is_false. intros Hex.
  apply existsb_exists in Hex as (d & Hin & Hs).
  rewrite forallb_forall in Hlive. specialize (Hlive d Hin).
  unfold is_live in Hlive. rewrite Hs in Hlive. discriminate.
Qed.

End Admitter.

(** C4. When at least one hydrated task of the batch is stale, every pair
    [CanAccept] returns is for a stale task and carries the bid 1000, and no
    live task receives a bid; once the parameters are ready and the select
    went through, the pairs returned are exactly the stale tasks. *)
Theorem CanAccept_stale_priority pol srt t ids w :
  existsb is_stale (hydrated pol t ids w) = true ->
  (forall b, In b (fst (fst (CanAccept pol srt t ids w))) ->
     harmonytask.Bid b = 1000
     /\ exists d, In d (hydrated pol t ids w) /\ is_stale d = true
                  /\ TaskDef.TaskID d = harmonytask.TaskID b)
  /\ (NoDup (map pt_task_id (wdpost_partition_tasks (store w))) ->
      forall d, In d (hydrated pol t ids w) -> is_stale d = false ->
        ~ In (TaskDef.TaskID d)
             (map harmonytask.TaskID (fst (fst (CanAccept pol srt t ids w)))))
  /\ (paramsReady t = Ok true ->
      db_error (db t) (length (issued w)) = None ->
      fst (fst (CanAccept pol srt t ids w))
      = map stale_bid (filter is_stale (hydrated pol t ids w))
      /\ fst (fst (CanAccept pol srt t ids w)) <> []).
Proof.
  intros Hstale.
  pose proof (CanAccept_stale_pairs pol srt t ids w Hstale) as Hall.
  split; [|split].
  - intros b Hb. destruct (Hall b Hb) as (d & Hin & Hs & ->).
    split; [reflexivity|]. now exists d.
  - intros Hnd d Hin Hlive Hbid.
    apply in_map_iff in Hbid as (b & Hid & Hb).
    destruct (Hall b Hb) as (d' & Hin' & Hs & ->). cbn in Hid.
    assert (d' = d).
    { eapply NoDup_map_eq; eauto. now apply hydrated_task_ids. }
    subst d'. congruence.
  - intros Hp Hd. rewrite (CanAccept_admitted pol srt t ids w Hp Hd), Hstale.
    split; [reflexivity|].
    apply existsb_exists in Hstale as (d & Hin & Hs).
    intros Hnil.
    assert (Hd' : In (stale_bid d)
                     (map stale_bid (filter is_stale (hydrated pol t ids w)))).
    { apply in_map, filter_In. now split. }
    rewrite Hnil in Hd'. destruct Hd'.
Qed.

Lemma CanAccept_stale_priority_witness :
  fst (fst (CanAccept mainnet goSort (Scenario.task 10000 no_faults) [1; 2]
              Scenario.staleAndLive))
  = map stale_bid
      (filter is_stale
         (hydrated mainnet (Scenario.task 10000 no_faults) [1; 2] Scenario.staleAndLive))
  /\ fst (fst (CanAccept mainnet goSort (Scenario.task 10000 no_faults) [1; 2]
                 Scenario.staleAndLive)) <> [].
Proof.
  exact (proj2 (proj2 (CanAccept_stale_priority mainnet goSort
                         (Scenario.task 10000 no_faults) [1; 2]
                         Scenario.staleAndLive eq_refl)) eq_refl eq_refl).
Defined.

(** The stale row of the batch is returned with bid 1000, the live one is not. *)
Example CanAccept_stale_example :
  fst (CanAccept mainnet goSort (Scenario.task 10000 no_faults) [1; 2]
         Scenario.staleAndLive)
  = ([ {| harmonytask.TaskID := 2; harmonytask.Bid := 1000 |} ], None).
Proof. reflexivity. Qed.

(** C5. For a batch of live tasks only, with [n] their number: the tasks
    are sorted ascending by the [Open] epoch of their deadline, and the task
    at position [i] of that order gets the bid [n + 10 - i] minus what its
    history query reports (its recorded failure count; nothing when the
    query fails). The bid is not clamped. The earliest-opening task is at
    position 0 and has the strictly largest base bid. *)
Theorem CanAccept_urgency_bids pol srt t ids w :
  paramsReady t = Ok true ->
  db_error (db t) (length (issued w)) = None ->
  forallb is_live (hydrated pol t ids w) = true ->
  let sorted := sortSlice srt by_open (hydrated pol t ids w) in
  let n := Z.of_nat (length (hydrated pol t ids w)) in
  let bids := fst (fst (CanAccept pol srt t ids w)) in
  Permutation (hydrated pol t ids w) sorted
  /\ StronglySorted (fun a b => open_of a <= open_of b) sorted
  /\ length bids = length (hydrated pol t ids w)
  /\ (forall i d, nth_error sorted i = Some d ->
        nth_error bids i =
        Some {| harmonytask.TaskID := TaskDef.TaskID d;
                harmonytask.Bid :=
                  base_bid n i
                  - penalty (db t) (store w) (length (issued w) + 1 + i)
                      (TaskDef.TaskID d) |})
  /\ (forall i d, nth_error sorted i = Some d ->
        db_error (db t) (length (issued w) + 1 + i) = None ->
        nth_error bids i =
        Some {| harmonytask.TaskID := TaskDef.TaskID d;
                harmonytask.Bid :=
                  n + 10 - Z.of_nat i - failure_count (store w) (TaskDef.TaskID d) |})
  /\ (forall i, (0 < i)%nat -> base_bid n i < base_bid n 0)
  /\ (forall d0 d, nth_error sorted 0 = Some d0 -> In d sorted ->
        open_of d0 <= open_of d).
Proof.
  intros Hp Hd Hlive sorted n bids.
  assert (Hperm : Permutation (hydrated pol t ids w) sorted)
    by apply sortSlice_perm.
  assert (Hsorted : StronglySorted (fun a b => open_of a <= open_of b) sorted)
    by apply (sortSlice_sorted srt open_of).
  assert (Hbids : bids = fst (mapWithIndex (bid_for (db t) n) 0 sorted
                                (log_stmt (SelectTasks ids) w)))
    by exact (CanAccept_live_pairs pol srt t ids w Hp Hd Hlive).
  destruct (mapWithIndex_bids (db t) n sorted 0 (log_stmt (SelectTasks ids) w))
    as (Hlen & _ & Hnth).
  assert (Hformula : forall i d, nth_error sorted i = Some d ->
    nth_error bids i =
    Some {| harmonytask.TaskID := TaskDef.TaskID d;
            harmonytask.Bid :=
              base_bid n i
              - penalty (db t) (store w) (length (issued w) + 1 + i)
                  (TaskDef.TaskID d) |}).
  { intros i d Hi. rewrite Hbids, (Hnth i d Hi).
    cbn [issued log_stmt store]. rewrite length_app. cbn [length].
    unfold base_bid. rewrite Z.add_0_l. reflexivity. }
  repeat split; trivial.
  - rewrite Hbids, Hlen. symmetry. now apply Permutation_length.
  - intros i d Hi He. rewrite (Hformula i d Hi). unfold penalty, base_bid.
    now rewrite He.
  - intros i Hi. unfold base_bid. lia.
  - intros d0 d H0 Hin. destruct sorted as [|x rest]; [discriminate|].
    injection H0 as ->. apply StronglySorted_inv in Hsorted as [_ Hall].
    destruct Hin as [->|Hin]; [lia|].
    rewrite Forall_forall in Hall. now apply Hall.
Qed.

Lemma CanAccept_urgency_bids_witness :
  nth_error (fst (fst (CanAccept mainnet goSort (Scenario.task 400 no_faults)
                         [1; 2; 3] Scenario.threeLive))) 1
  = Some {| harmonytask.TaskID := 2; harmonytask.Bid := 3 + 10 - 1 - 2 |}.
Proof.
  exact (proj1 (proj2 (proj2 (proj2 (proj2
           (CanAccept_urgency_bids mainnet goSort (Scenario.task 400 no_faults)
              [1; 2; 3] Scenario.threeLive eq_refl eq_refl eq_refl)))))
           1%nat
           (with_dlInfo mainnet 400 (2, 1001, 600, 0, 0)) eq_refl eq_refl).
Defined.

(** Scenario S4: opens 500, 600, 700 with 0, 2, 0 failures bid 13, 10, 11. *)
Example CanAccept_three_live :
  fst (CanAccept mainnet goSort (Scenario.task 400 no_faults) [1; 2; 3]
         Scenario.threeLive)
  = ([ {| harmonytask.TaskID := 1; harmonytask.Bid := 13 |};
       {| harmonytask.TaskID := 2; harmonytask.Bid := 10 |};
       {| harmonytask.TaskID := 3; harmonytask.Bid := 11 |} ], None).
Proof. reflexivity. Qed.

(** Twenty recorded failures take the bid of a single live task below zero. *)
Example CanAccept_negative_bid :
  fst (CanAccept mainnet goSort (Scenario.task 400 no_faults) [1]
         Scenario.manyFailures)
  = ([ {| harmonytask.TaskID := 1; harmonytask.Bid := -9 |} ], None).
Proof. reflexivity. Qed.

(** C8 (amended). For a batch of live tasks only, the pairs are returned
    in the order of the urgency sort: the list of their task ids is that of
    the hydrated tasks rearranged into ascending [Open] epoch. The order of
    tasks with equal [Open] is the one [sort.Slice] leaves. *)
Theorem CanAccept_returns_urgency_order pol srt t ids w :
  paramsReady t = Ok true ->
  db_error (db t) (length (issued w)) = None ->
  forallb is_live (hydrated pol t ids w) = true ->
  exists sorted,
    Permutation (hydrated pol t ids w) sorted
    /\ StronglySorted (fun a b => open_of a <= open_of b) sorted
    /\ map harmonytask.TaskID (fst (fst (CanAccept pol srt t ids w)))
       = map TaskDef.TaskID sorted.
Proof.
  intros Hp Hd Hlive.
  exists (sortSlice srt by_open (hydrated pol t ids w)).
  split; [apply sortSlice_perm|].
  split; [apply (sortSlice_sorted srt open_of)|].
  rewrite (CanAccept_live_pairs pol srt t ids w Hp Hd Hlive).
  apply mapWithIndex_bids.
Qed.

Lemma CanAccept_returns_urgency_order_witness :
  exists sorted,
    Permutation (hydrated mainnet (Scenario.task 400 no_faults) [1; 2] Scenario.twoLive)
                sorted
    /\ StronglySorted (fun a b => open_of a <= open_of b) sorted
    /\ map harmonytask.TaskID
         (fst (fst (CanAccept mainnet goSort (Scenario.task 400 no_faults) [1; 2]
                      Scenario.twoLive)))
       = map TaskDef.TaskID sorted.
Proof.
  exact (CanAccept_returns_urgency_order mainnet goSort (Scenario.task 400 no_faults)
           [1; 2] Scenario.twoLive eq_refl eq_refl eq_refl).
Defined.

(** C8, as stated, fails: given the live tasks 1 (opening at 600) and 2
    (opening at 500) in this order, [CanAccept] returns task 2 first. *)
Lemma CanAccept_reorders_batch :
  forallb is_live
    (hydrated mainnet (Scenario.task 400 no_faults) [1; 2] Scenario.twoLive) = true
  /\ map TaskDef.TaskID
       (hydrated mainnet (Scenario.task 400 no_faults) [1; 2] Scenario.twoLive)
     = [1; 2]
  /\ map harmonytask.TaskID
       (fst (fst (CanAccept mainnet goSort (Scenario.task 400 no_faults) [1; 2]
                    Scenario.twoLive)))
     = [2; 1].
Proof. repeat split. Qed.

(** The same batch under any implementation of [sort.Slice]: two tasks with
    different [Open] epochs have one sorted order. *)
Lemma CanAccept_reorders_batch_any_sorter srt :
  map harmonytask.TaskID
    (fst (fst (CanAccept mainnet srt (Scenario.task 400 no_faults) [1; 2]
                 Scenario.twoLive)))
  = [2; 1].
Proof.
  rewrite (CanAccept_live_pairs mainnet srt (Scenario.task 400 no_faults) [1; 2]
             Scenario.twoLive eq_refl eq_refl eq_refl).
  destruct (mapWithIndex_bids (db (Scenario.task 400 no_faults))
              (Z.of_nat (length (hydrated mainnet (Scenario.task 400 no_faults) [1; 2]
                                   Scenario.twoLive)))
              (sortSlice srt by_open
                 (hydrated mainnet (Scenario.task 400 no_faults) [1; 2] Scenario.twoLive))
              0 (log_stmt (SelectTasks [1; 2]) Scenario.twoLive)) as (_ & -> & _).
  pose proof (sortSlice_perm srt by_open
                (hydrated mainnet (Scenario.task 400 no_faults) [1; 2] Scenario.twoLive))
    as Hperm.
  pose proof (sortSlice_sorted srt open_of
                (hydrated mainnet (Scenario.task 400 no_faults) [1; 2] Scenario.twoLive))
    as Hsorted.
  fold by_open in Hsorted.
  change (hydrated mainnet (Scenario.task 400 no_faults) [1; 2] Scenario.twoLive)
    with [with_dlInfo mainnet 400 (1, 1001, 600, 0, 0);
          with_dlInfo mainnet 400 (2, 1001, 500, 0, 0)] in Hperm, Hsorted |- *.
  apply Permutation_length_2_inv in Hperm as [E|E]; rewrite E in Hsorted |- *.
  - exfalso. apply StronglySorted_inv in Hsorted as [_ Hall].
    apply Forall_inv in Hall. vm_compute in Hall. now apply Hall.
  - reflexivity.
Qed.

(** ** The watcher *)

Lemma identity_eqb_eq a b : identity_eqb a b = true <-> a = b.
Proof.
  unfold identity_eqb. rewrite !andb_true_iff, !Z.eqb_eq.
  destruct a, b; cbn. split.
  - intros [[[-> ->] ->] ->]. reflexivity.
  - intros [= -> -> -> ->]. repeat split.
Qed.

Lemma has_identity_In i st :
  has_identity i st = true <-> In i (identities st).
Proof.
  unfold has_identity, identities. rewrite existsb_exists, in_map_iff.
  split; intros (r & H1 & H2); exists r.
  - apply identity_eqb_eq in H2. now split.
  - split; [exact H2|]. now apply identity_eqb_eq.
Qed.

Lemma has_identity_add i row st :
  has_identity i (add_task_row row st)
  = has_identity i st || identity_eqb (pt_identity row) i.
Proof.
  unfold has_identity, add_task_row. cbn.
  rewrite existsb_app. cbn. now rewrite orb_false_r.
Qed.

Lemma has_task_id_fresh w :
  fresh_ids w -> has_task_id (task_seq w) (store w) = false.
Proof.
  unfold fresh_ids, has_task_id. intros H.
  apply not_true_is_false. intros Hex.
  apply existsb_exists in Hex as (r & Hin & Heq).
  rewrite Forall_forall in H. specialize (H r Hin).
  apply Z.eqb_eq in Heq. lia.
Qed.

Section Factory.

Variables (db : DBFaults) (tid : wdTaskIdentity) (w : World).

Let w' := AddTask (fun id tx => addTaskToDB db id tid tx) w.

(** One proposal either leaves the table as it is or appends the proposed
    row under the next task id. *)
Lemma AddTask_cases :
  store w' = store w
  \/ (has_identity tid (store w) = false
      /\ store w' = add_task_row {| pt_task_id := task_seq w; pt_identity := tid |}
                                 (store w)).
Proof.
  unfold w', AddTask, addTaskToDB, execInsertTask, unique_violation.
  destruct (db_error db _); [now left|]. cbn [pt_task_id pt_identity].
  destruct (has_task_id _ _); [now left|].
  destruct (has_identity tid (store w)) eqn:E; [now left|].
  destruct (db_discards db _); [now left|].
  right. now split.
Qed.

(** A proposal whose identity is in the table changes no row. *)
Lemma AddTask_duplicate :
  has_identity tid (store w) = true -> store w' = store w.
Proof.
  intros H. destruct AddTask_cases as [E|[E _]]; [exact E|congruence].
Qed.

Lemma AddTask_keeps i :
  has_identity i (store w) = true -> has_identity i (store w') = true.
Proof.
  intros H. destruct AddTask_cases as [E|[_ E]]; rewrite E; [exact H|].
  rewrite has_identity_add, H. reflexivity.
Qed.

Lemma AddTask_fresh : fresh_ids w -> fresh_ids w'.
Proof.
  unfold fresh_ids. intros H.
  assert (Hseq : task_seq w' = task_seq w + 1).
  { unfold w', AddTask. now destruct (addTaskToDB _ _ _ _) as [[c e] w1]. }
  rewrite Hseq.
  assert (Hw : Forall (fun r => pt_task_id r < task_seq w + 1)
                      (wdpost_partition_tasks (store w))).
  { eapply Forall_impl; [|exact H]. cbn. intros; lia. }
  destruct AddTask_cases as [E|[_ E]]; rewrite E; [exact Hw|].
  cbn. apply Forall_app. split; [exact Hw|].
  constructor; [cbn; lia|constructor].
Qed.

(** With a database that answers and fresh task ids, the proposed identity
    is in the table afterwards. *)
Lemma AddTask_enqueues :
  fault_free db -> fresh_ids w -> has_identity tid (store w') = true.
Proof.
  intros [Herr Hdis] Hfresh.
  destruct (has_identity tid (store w)) eqn:E; [now apply AddTask_keeps|].
  unfold w', AddTask, addTaskToDB, execInsertTask, unique_violation.
  rewrite Herr, Hdis. cbn [pt_task_id pt_identity].
  rewrite (has_task_id_fresh w Hfresh), E.
  cbn [store set_store]. rewrite has_identity_add. cbn [pt_identity].
  replace (identity_eqb tid tid) with true; [apply orb_true_r|].
  symmetry. now apply identity_eqb_eq.
Qed.

End Factory.

Section Watcher.

Variables (t : WdPostTask) (apply : TipSet).
Hypothesis Hfactory : windowPoStTF t = Some AddTask.

Lemma rangePartitions_spec aid di pidxs : forall w,
  fst (rangePartitions t aid di pidxs w) = None
  /\ (forall i, has_identity i (store w) = true ->
        has_identity i (store (snd (rangePartitions t aid di pidxs w))) = true)
  /\ (fresh_ids w -> fresh_ids (snd (rangePartitions t aid di pidxs w)))
  /\ (fault_free (db t) -> fresh_ids w ->
      forall p, In p pidxs ->
        has_identity (identity_of aid di p)
          (store (snd (rangePartitions t aid di pidxs w))) = true)
  /\ ((forall p, In p pidxs -> has_identity (identity_of aid di p) (store w) = true) ->
      store (snd (rangePartitions t aid di pidxs w)) = store w).
Proof.
  induction pidxs as [|p rest IH]; intros w; cbn [rangePartitions].
  - repeat split; trivial. intros _ _ p [].
  - rewrite Hfactory.
    set (tid := identity_of aid di p).
    set (w1 := AddTask (fun id tx => addTaskToDB (db t) id _ tx) w).
    destruct (IH w1) as (Herr & Hkeep & Hfresh & Henq & Hdup).
    split; [exact Herr|]. split; [|split; [|split]].
    + intros i Hi. apply Hkeep. now apply AddTask_keeps.
    + intros Hf. apply Hfresh. now apply AddTask_fresh.
    + intros Hff Hf q [<-|Hq].
      * apply Hkeep. now apply AddTask_enqueues.
      * apply Henq; trivial. now apply AddTask_fresh.
    + intros Hall.
      assert (E : store w1 = store w).
      { apply AddTask_duplicate. apply Hall. now left. }
      rewrite Hdup; [exact E|].
      intros q Hq. rewrite E. apply Hall. now right.
Qed.

Lemma rangeActors_spec visit : forall w,
  (forall i, has_identity i (store w) = true ->
     has_identity i (store (snd (rangeActors t apply visit w))) = true)
  /\ (fresh_ids w -> fresh_ids (snd (rangeActors t apply visit w)))
  /\ (fault_free (db t) -> fresh_ids w ->
      forall i, In i (proposed t apply visit) ->
        has_identity i (store (snd (rangeActors t apply visit w))) = true)
  /\ ((forall i, In i (proposed t apply visit) -> has_identity i (store w) = true) ->
      store (snd (rangeActors t apply visit w)) = store w).
Proof.
  induction visit as [|maddr rest IH]; intros w; cbn [rangeActors proposed].
  - repeat split; trivial. intros _ _ i [].
  - destruct (IDFromAddress maddr) as [aid|e];
      [|repeat split; trivial; intros _ _ i []].
    destruct (StateMinerProvingDeadline (api t) maddr (Key apply)) as [di|e];
      [|repeat split; trivial; intros _ _ i []].
    destruct (negb (dline.PeriodStarted di));
      [repeat split; trivial; intros _ _ i []|].
    destruct (StateMinerPartitions (api t) maddr (dline.Index di) (Key apply))
      as [parts|e]; [|repeat split; trivial; intros _ _ i []].
    destruct (rangePartitions_spec aid di (indices parts) w)
      as (Herr & Hkeep & Hfresh & Henq & Hdup).
    destruct (rangePartitions t aid di (indices parts) w) as [err w1].
    cbn [fst snd] in *. subst err.
    destruct (IH w1) as (Hkeep' & Hfresh' & Henq' & Hdup').
    split; [|split; [|split]].
    + intros i Hi. now apply Hkeep', Hkeep.
    + intros Hf. now apply Hfresh', Hfresh.
    + intros Hff Hf i Hi. apply in_app_or in Hi as [Hi|Hi].
      * apply in_map_iff in Hi as (p & <- & Hp). apply Hkeep'. now apply Henq.
      * apply Henq'; trivial. now apply Hfresh.
    + intros Hall.
      assert (E : store w1 = store w).
      { apply Hdup. intros p Hp. apply Hall, in_or_app. left. now apply in_map. }
      rewrite Hdup'; [exact E|].
      intros i Hi. rewrite E. apply Hall, in_or_app. now right.
Qed.

(** With the tracked miners visited in the same order, a database that
    answers and fresh task ids, a second run on the same tipset changes no
    row of the task table. *)
Lemma processHeadChange_same_order_idempotent visit revert w :
  fault_free (db t) -> fresh_ids w ->
  let w1 := snd (processHeadChange t visit revert apply w) in
  store (snd (processHeadChange t visit revert apply w1)) = store w1.
Proof.
  intros Hff Hf w1. unfold processHeadChange.
  apply rangeActors_spec. intros i Hi.
  now apply (rangeActors_spec visit w).
Qed.

(** Every identity the run proposes is in the table afterwards. *)
Lemma processHeadChange_enqueues_proposed visit revert w :
  fault_free (db t) -> fresh_ids w ->
  forall i, In i (proposed t apply visit) ->
    task_exists i (snd (processHeadChange t visit revert apply w)).
Proof.
  intros Hff Hf i Hi. unfold task_exists, processHeadChange.
  now apply rangeActors_spec.
Qed.

(** A tracked miner that resolves, whose period has started and whose
    partitions the chain returns. *)
Let ready (maddr : Address) : Prop :=
  exists aid di parts,
    IDFromAddress maddr = Ok aid
    /\ StateMinerProvingDeadline (api t) maddr (Key apply) = Ok di
    /\ dline.PeriodStarted di = true
    /\ StateMinerPartitions (api t) maddr (dline.Index di) (Key apply) = Ok parts.

Lemma proposed_covers visit maddr aid di parts p :
  Forall ready visit -> In maddr visit ->
  IDFromAddress maddr = Ok aid ->
  StateMinerProvingDeadline (api t) maddr (Key apply) = Ok di ->
  StateMinerPartitions (api t) maddr (dline.Index di) (Key apply) = Ok parts ->
  (p < length parts)%nat ->
  In (identity_of aid di (Z.of_nat p)) (proposed t apply visit).
Proof.
  intros Hall Hin Hid Hdi Hparts Hp.
  induction Hall as [|a rest Ha Hrest IH]; [destruct Hin|].
  cbn [proposed]. destruct Ha as (aid' & di' & parts' & Ea & Eb & Ec & Ed).
  rewrite Ea, Eb, Ec, Ed. cbn [negb]. apply in_or_app.
  destruct Hin as [->|Hin]; [left|right; now apply IH].
  rewrite Hid in Ea. injection Ea as <-.
  rewrite Hdi in Eb. injection Eb as <-.
  rewrite Hparts in Ed. injection Ed as <-.
  apply in_map. unfold indices. apply in_map. apply in_seq. lia.
Qed.

(** No lost deadlines, as far as the loop goes: when every miner the loop
    visits resolves and has started its period, every partition of every
    visited miner has its task row after the run. *)
Lemma processHeadChange_enqueues_all visit revert w maddr aid di parts p :
  fault_free (db t) -> fresh_ids w ->
  Forall ready visit -> In maddr visit ->
  IDFromAddress maddr = Ok aid ->
  StateMinerProvingDeadline (api t) maddr (Key apply) = Ok di ->
  StateMinerPartitions (api t) maddr (dline.Index di) (Key apply) = Ok parts ->
  (p < length parts)%nat ->
  task_exists (identity_of aid di (Z.of_nat p))
              (snd (processHeadChange t visit revert apply w)).
Proof.
  intros Hff Hf Hall Hin Hid Hdi Hparts Hp.
  apply processHeadChange_enqueues_proposed; trivial.
  now apply (proposed_covers visit maddr aid di parts p).
Qed.

End Watcher.

(** Scenario S1: one tracked miner inside deadline 2 with three partitions. *)
Example processHeadChange_three_partitions :
  identities
    (store (snd (processHeadChange (Scenario.task 120 no_faults) [Scenario.minerB]
                   (Scenario.headAt 119) (Scenario.headAt 120)
                   (Scenario.worldOf Scenario.emptyStore 1))))
  = [mkIdentity 1001 0 2 0; mkIdentity 1001 0 2 1; mkIdentity 1001 0 2 2].
Proof. reflexivity. Qed.

(** Scenario S2: the same call again leaves the three rows as they are. *)
Example processHeadChange_repeated :
  let w1 := snd (processHeadChange (Scenario.task 120 no_faults) [Scenario.minerB]
                   (Scenario.headAt 119) (Scenario.headAt 120)
                   (Scenario.worldOf Scenario.emptyStore 1)) in
  store (snd (processHeadChange (Scenario.task 120 no_faults) [Scenario.minerB]
                (Scenario.headAt 119) (Scenario.headAt 120) w1))
  = store w1.
Proof. reflexivity. Qed.

(** C1. The run the claim does not survive: two tracked miners, A with a
    proving period that has not started and B inside its deadline 2 with
    three partitions. When the loop meets A first it returns, and no task
    row exists for B after the call; met in the other order, B gets its
    three rows. *)
Theorem processHeadChange_stops_at_unstarted_miner :
  let t := Scenario.task 120 no_faults in
  let apply := Scenario.headAt 120 in
  let w0 := Scenario.worldOf Scenario.emptyStore 1 in
  StateMinerProvingDeadline (api t) Scenario.minerA (Key apply)
    = Ok (NewDeadlineInfo mainnet 5000 0 120)
  /\ dline.PeriodStarted (NewDeadlineInfo mainnet 5000 0 120) = false
  /\ StateMinerProvingDeadline (api t) Scenario.minerB (Key apply)
      = Ok (NewDeadlineInfo mainnet 0 2 120)
  /\ dline.PeriodStarted (NewDeadlineInfo mainnet 0 2 120) = true
  /\ dline.PeriodElapsed (NewDeadlineInfo mainnet 0 2 120) = false
  /\ StateMinerPartitions (api t) Scenario.minerB 2 (Key apply)
      = Ok Scenario.threePartitions
  /\ processHeadChange t [Scenario.minerA; Scenario.minerB]
       (Scenario.headAt 119) apply w0 = (None, w0)
  /\ has_identity (mkIdentity 1001 0 2 0)
       (store (snd (processHeadChange t [Scenario.minerA; Scenario.minerB]
                      (Scenario.headAt 119) apply w0))) = false
  /\ identities
       (store (snd (processHeadChange t [Scenario.minerB; Scenario.minerA]
                      (Scenario.headAt 119) apply w0)))
     = [mkIdentity 1001 0 2 0; mkIdentity 1001 0 2 1; mkIdentity 1001 0 2 2].
Proof. cbv zeta. repeat split. Qed.

(** C3. Two calls on the same applied tipset that do not leave the store
    as one call does: the first meets the unstarted miner A first and
    enqueues nothing, the second meets B first and enqueues its three
    partitions. *)
Theorem processHeadChange_order_breaks_idempotence :
  let t := Scenario.task 120 no_faults in
  let apply := Scenario.headAt 120 in
  let w0 := Scenario.worldOf Scenario.emptyStore 1 in
  let w1 := snd (processHeadChange t [Scenario.minerA; Scenario.minerB]
                   (Scenario.headAt 119) apply w0) in
  let w2 := snd (processHeadChange t [Scenario.minerB; Scenario.minerA]
                   (Scenario.headAt 119) apply w1) in
  Permutation [Scenario.minerA; Scenario.minerB] (actors t)
  /\ Permutation [Scenario.minerB; Scenario.minerA] (actors t)
  /\ identities (store w1) = []
  /\ identities (store w2)
     = [mkIdentity 1001 0 2 0; mkIdentity 1001 0 2 1; mkIdentity 1001 0 2 2].
Proof.
  cbv zeta. split; [apply Permutation_refl|].
  split; [apply perm_swap|]. split; reflexivity.
Qed.

(** The part of C3 that holds on its own: proposing a task whose identity
    is in the table changes no row, although the insert has no conflict
    clause; it fails on the unique key and the factory discards it. *)
Example addTaskToDB_duplicate_example :
  let w1 := snd (processHeadChange (Scenario.task 120 no_faults) [Scenario.minerB]
                   (Scenario.headAt 119) (Scenario.headAt 120)
                   (Scenario.worldOf Scenario.emptyStore 1)) in
  fst (addTaskToDB no_faults (task_seq w1) (mkIdentity 1001 0 2 0) w1)
  = (false,
     Some (wrapErr "insert partition task"%string
             "duplicate key value violates unique constraint (identity)"%string))
  /\ store (AddTask (fun id tx => addTaskToDB no_faults id (mkIdentity 1001 0 2 0) tx) w1)
     = store w1.
Proof. cbv zeta. split; reflexivity. Qed.

(** * Further properties *)

Ltac unfold_do_steps :=
  unfold Do, run, bind, orReturn, pure, lift, isTestTask, ret, exit, failWith,
    callDoPartition, queryTestCount, execUpdateTest, execInsertProof.

Ltac split_inner :=
  match goal with
  | |- context [match ?x with _ => _ end] =>
    lazymatch x with
    | context [match _ with _ => _ end] => fail
    | _ => first [is_var x; destruct x | let E := fresh "E" in destruct x eqn:E]
    end
  end.

Lemma Do_store_cases pol t taskID w :
  store (snd (Do pol t taskID w)) = store w
  \/ (fst (Do pol t taskID w) = (true, None)
      /\ exists row, store (snd (Do pol t taskID w)) = add_proof row (store w))
  \/ (fst (Do pol t taskID w) = (true, None)
      /\ exists data,
           store (snd (Do pol t taskID w)) = update_test_result taskID data (store w)).
Proof.
  unfold_do_steps.
  pose proof (queryIdentity_world (db t) taskID w) as Hw.
  destruct (queryIdentity (db t) taskID w) as [q w1]. cbn [snd] in Hw. subst w1.
  repeat (split_inner; cbn [fst snd]);
    cbn [snd fst store log_stmt log_call set_store];
    first [ now left
          | right; left; split; [reflexivity|eexists; reflexivity]
          | right; right; split; [reflexivity|eexists; reflexivity] ].
Qed.

Lemma app_one_neq {A} (l : list A) (x : A) : l ++ [x] <> l.
Proof.
  intros H. apply (f_equal (@length A)) in H. rewrite length_app in H. cbn in H. lia.
Qed.

(** Success without a call of the proof generator is the reaping of a stale task. *)
Theorem Do_success_without_proof_is_reap pol t taskID w :
  fst (Do pol t taskID w) = (true, None) ->
  calls (snd (Do pol t taskID w)) = calls w ->
  exists spID pps dlIdx partIdx head,
    fst (queryIdentity (db t) taskID w) = Ok (spID, pps, dlIdx, partIdx)
    /\ ChainHead (api t) = Ok head
    /\ dline.PeriodElapsed
         (NewDeadlineInfo pol (Int64.wrap pps) dlIdx (Height head)) = true
    /\ store (snd (Do pol t taskID w)) = store w.
Proof.
  unfold_do_steps.
  pose proof (queryIdentity_world (db t) taskID w) as Hw.
  destruct (queryIdentity (db t) taskID w) as [q w1]. cbn [snd] in Hw. subst w1.
  repeat (split_inner; cbn [fst snd]);
    cbn [snd fst store calls log_stmt log_call set_store];
    intros H1 H2; try discriminate;
    try (exfalso; exact (app_one_neq _ _ H2));
    do 5 eexists; repeat split; eassumption.
Qed.

Lemma add_proof_inv row row' st : add_proof row st = add_proof row' st -> row = row'.
Proof.
  intros H. apply (f_equal wdpost_proofs) in H. cbn in H.
  apply app_inv_head in H. now injection H.
Qed.

Lemma add_proof_changes row st : st <> add_proof row st.
Proof.
  intros H. apply (f_equal wdpost_proofs) in H. cbn in H.
  symmetry in H. exact (app_one_neq _ _ H).
Qed.

Lemma update_is_no_insert taskID data row st :
  update_test_result taskID data st <> add_proof row st.
Proof.
  intros H. apply (f_equal wdpost_proofs) in H. cbn in H.
  symmetry in H. exact (app_one_neq _ _ H).
Qed.

(** Where a row of [wdpost_proofs] comes from. *)
Theorem Do_inserted_row_provenance pol t taskID w row :
  store (snd (Do pol t taskID w)) = add_proof row (store w) ->
  exists spID pps dlIdx partIdx head maddr ts postOut msgbuf,
    fst (queryIdentity (db t) taskID w) = Ok (spID, pps, dlIdx, partIdx)
    /\ ChainHead (api t) = Ok head
    /\ dline.PeriodElapsed
         (NewDeadlineInfo pol (Int64.wrap pps) dlIdx (Height head)) = false
    /\ NewIDAddress spID = Ok maddr
    /\ ChainGetTipSetAfterHeight (api t)
         (dline.Challenge (NewDeadlineInfo pol (Int64.wrap pps) dlIdx (Height head)))
         (Key head) = Ok ts
    /\ DoPartition t ts maddr
         (NewDeadlineInfo pol (Int64.wrap pps) dlIdx (Height head)) partIdx = Ok postOut
    /\ MarshalCBOR t postOut = Ok msgbuf
    /\ row = proof_row spID pps partIdx
               (NewDeadlineInfo pol (Int64.wrap pps) dlIdx (Height head)) msgbuf
    /\ fst (Do pol t taskID w) = (true, None).
Proof.
  unfold_do_steps.
  pose proof (queryIdentity_world (db t) taskID w) as Hw.
  destruct (queryIdentity (db t) taskID w) as [q w1]. cbn [snd] in Hw. subst w1.
  repeat (split_inner; cbn [fst snd]);
    cbn [snd fst store calls log_stmt log_call set_store];
    intros H;
    try (exfalso; exact (add_proof_changes _ _ H));
    try (exfalso; exact (update_is_no_insert _ _ _ _ H));
    try solve [exfalso; cbn in *; congruence];
    apply add_proof_inv in H; subst row;
    do 9 eexists; repeat split; eassumption.
Qed.

(** ** The test path of [Do] *)

Lemma isTestTask_row R t taskID w :
  0 < count_test_rows (store w) taskID ->
  db_error (db t) (length (issued w)) = None ->
  isTestTask (R:=R) t taskID None w =
  (inl (true, Some (count_test_rows (store w) taskID)),
   log_stmt (CountHarmonyTest taskID) w).
Proof.
  intros Hc Hq. rewrite isTestTask_first, Hq.
  replace (0 <? count_test_rows (store w) taskID) with true; [reflexivity|].
  symmetry. now apply Z.ltb_lt.
Qed.

Section TestPath.

Variables (pol : Policy) (t : WdPostTask) (taskID : TaskID) (w : World).
Variables (spID pps dlIdx partIdx : Z) (head : TipSet) (maddr : Address).
Variables (ts : TipSet) (postOut : PoSt) (msgbuf : list Byte.byte) (data : string).

Let deadline := effective_deadline pol pps dlIdx head true.

Hypothesis Hidentity :
  fst (queryIdentity (db t) taskID w) = Ok (spID, pps, dlIdx, partIdx).
Hypothesis Hhead : ChainHead (api t) = Ok head.
Hypothesis Htest : 0 < count_test_rows (store w) taskID.
Hypothesis Hquery : db_error (db t) (S (length (issued w))) = None.
Hypothesis Haddr : NewIDAddress spID = Ok maddr.
Hypothesis Hts :
  ChainGetTipSetAfterHeight (api t) (dline.Challenge deadline) (Key head) = Ok ts.
Hypothesis Hproof : DoPartition t ts maddr deadline partIdx = Ok postOut.
Hypothesis Hcbor : MarshalCBOR t postOut = Ok msgbuf.
Hypothesis Hjson :
  MarshalIndent t (test_doc spID pps partIdx deadline postOut msgbuf) = Ok data.

Let w1 := log_stmt (SelectIdentity taskID) w.
Let w2 := log_stmt (CountHarmonyTest taskID) w1.
Let n := (length (issued w) + 2)%nat.

Lemma Do_test_update :
  Do pol t taskID w =
  let w3 := log_stmt (UpdateHarmonyTest taskID data)
              (log_call (CallDoPartition ts maddr deadline partIdx) w2) in
  match db_error (db t) n with
  | Some e => ((false, Some (wrapErr "updating harmony_test" e)), w3)
  | None =>
    if db_discards (db t) n then ((true, None), w3)
    else ((true, None), set_store (update_test_result taskID data (store w)) w3)
  end.
Proof.
  assert (Hid : queryIdentity (db t) taskID w = (Ok (spID, pps, dlIdx, partIdx), w1)).
  { pose proof (queryIdentity_world (db t) taskID w) as Hw.
    destruct (queryIdentity (db t) taskID w) as [q w']. simpl in *. now subst. }
  assert (Hlen : forall c, length (issued (log_call c w1)) = S (length (issued w))
                           /\ length (issued w1) = S (length (issued w))).
  { intros c. unfold w1. cbn. rewrite length_app. cbn. lia. }
  assert (Hfirst : isTestTask (R:=DoResult) t taskID None w1
                   = (inl (true, Some (count_test_rows (store w) taskID)), w2)).
  { refine (isTestTask_row DoResult t taskID w1 Htest _).
    now rewrite (proj2 (Hlen (CallDoPartition ts maddr deadline partIdx))). }
  assert (Hlater : forall c,
    isTestTask (R:=DoResult) t taskID None (log_call c w1)
    = (inl (true, Some (count_test_rows (store w) taskID)),
       log_stmt (CountHarmonyTest taskID) (log_call c w1))).
  { intros c. refine (isTestTask_row DoResult t taskID (log_call c w1) Htest _).
    now rewrite (proj1 (Hlen c)). }
  assert (Hpos : (0 <? count_test_rows (store w) taskID) = true)
    by now apply Z.ltb_lt.
  revert Hts Hproof Hjson. unfold deadline, effective_deadline. cbv zeta.
  rewrite andb_true_r.
  do_steps. step Hid. step Hhead.
  destruct (dline.PeriodElapsed _) eqn:Hel;
    destruct (Height head <? dline.Challenge _) eqn:Hfut; intros Hts Hproof Hjson.
  - step Hfirst. cbn [negb]. cbv beta iota.
    rewrite isTestTask_memo, Hpos; cbv beta iota.
    step Haddr. step Hts. step Hproof. step Hcbor.
    rewrite isTestTask_memo, Hpos; cbv beta iota.
    unfold test_doc in Hjson. step Hjson. unfold execUpdateTest.
    match goal with
    | |- context [db_error (db t) ?k] =>
      tryif constr_eq k n then fail
      else replace k with n by (unfold n, w2, w1; cbn; rewrite !length_app; cbn; lia)
    end.
    destruct (db_error (db t) n); [reflexivity|].
    destruct (db_discards (db t) n); reflexivity.
  - step Hfirst. cbn [negb]. cbv beta iota.
    step Haddr. step Hts. step Hproof. step Hcbor.
    rewrite isTestTask_memo, Hpos; cbv beta iota.
    unfold test_doc in Hjson. step Hjson. unfold execUpdateTest.
    match goal with
    | |- context [db_error (db t) ?k] =>
      tryif constr_eq k n then fail
      else replace k with n by (unfold n, w2, w1; cbn; rewrite !length_app; cbn; lia)
    end.
    destruct (db_error (db t) n); [reflexivity|].
    destruct (db_discards (db t) n); reflexivity.
  - step Hfirst.
    step Haddr. step Hts. step Hproof. step Hcbor.
    rewrite isTestTask_memo, Hpos; cbv beta iota.
    unfold test_doc in Hjson. step Hjson. unfold execUpdateTest.
    match goal with
    | |- context [db_error (db t) ?k] =>
      tryif constr_eq k n then fail
      else replace k with n by (unfold n, w2, w1; cbn; rewrite !length_app; cbn; lia)
    end.
    destruct (db_error (db t) n); [reflexivity|].
    destruct (db_discards (db t) n); reflexivity.
  - step Haddr. step Hts. step Hproof. step Hcbor.
    step Hlater.
    unfold test_doc in Hjson. step Hjson. unfold execUpdateTest.
    match goal with
    | |- context [db_error (db t) ?k] =>
      tryif constr_eq k n then fail
      else replace k with n by (unfold n, w2, w1; cbn; rewrite !length_app; cbn; lia)
    end.
    destruct (db_error (db t) n); [reflexivity|].
    destruct (db_discards (db t) n); reflexivity.
Qed.

End TestPath.

(** ** Deadlines *)

Lemma wrap_small z : - 2 ^ 62 <= z <= 2 ^ 62 -> Int64.wrap z = z.
Proof.
  intros H. apply wrap_in_range.
  unfold Int64.in_range, Int64.max, Int64.half. lia.
Qed.

(** Rewrites the innermost wrapped value that stays in range. *)
Ltac unwrap :=
  repeat match goal with
         | |- context [Int64.wrap ?z] =>
           lazymatch z with
           | context [Int64.wrap _] => fail
           | _ => rewrite (wrap_small z) by nia
           end
         end.

(** A task is stale from the epoch its next period starts, whatever its
    deadline index, and stays stale at every later epoch. *)
Lemma PeriodElapsed_monotone pol pps idx idx' h h' :
  dline.PeriodElapsed (NewDeadlineInfo pol pps idx h) = true -> h <= h' ->
  dline.PeriodElapsed (NewDeadlineInfo pol pps idx' h') = true.
Proof.
  unfold dline.PeriodElapsed, dline.NextPeriodStart, NewDeadlineInfo, dline.NewInfo.
  destruct (idx <? _); destruct (idx' <? _); cbn; rewrite !Z.leb_le; lia.
Qed.

Lemma NewDeadlineInfo_period pol pps idx h :
  dline.WPoStProvingPeriod (NewDeadlineInfo pol pps idx h) = WPoStProvingPeriod pol.
Proof.
  unfold NewDeadlineInfo, dline.NewInfo. now destruct (idx <? _).
Qed.

(** The deadline of a test task whose challenge epoch lies above the head
    is the same window one proving period earlier. *)
Theorem test_deadline_one_period_back pol pps dlIdx head :
  small_policy pol -> 0 <= pps < 2 ^ 61 -> small_epoch (Height head) -> 0 <= dlIdx ->
  Height head
    < dline.Challenge (NewDeadlineInfo pol (Int64.wrap pps) dlIdx (Height head)) ->
  let d0 := NewDeadlineInfo pol (Int64.wrap pps) dlIdx (Height head) in
  let d := effective_deadline pol pps dlIdx head true in
  dline.Index d = dlIdx
  /\ dline.Open d = dline.Open d0 - WPoStProvingPeriod pol
  /\ dline.Close d = dline.Close d0 - WPoStProvingPeriod pol
  /\ dline.Challenge d = dline.Challenge d0 - WPoStProvingPeriod pol
  /\ dline.PeriodElapsed d = dline.PeriodElapsed d0
  /\ (dline.Challenge d <= Height head
      <-> dline.Challenge d0 <= Height head + WPoStProvingPeriod pol)
  /\ effective_deadline pol pps dlIdx head false = d0.
Proof.
  intros (HD & HP & HW & HL & HF) Hpps Hh Hidx Hfut d0 d.
  unfold small_epoch in Hh.
  assert (Hd : d = NewDeadlineInfo pol
                     (Int64.sub (Int64.wrap pps) (WPoStProvingPeriod pol)) dlIdx
                     (Int64.sub (Height head) (WPoStProvingPeriod pol))).
  { unfold d, effective_deadline. cbv zeta.
    replace (Height head <? dline.Challenge _) with true
      by (symmetry; now apply Z.ltb_lt).
    cbn [andb]. now rewrite NewDeadlineInfo_period. }
  assert (Hf : effective_deadline pol pps dlIdx head false = d0).
  { unfold effective_deadline. cbv zeta. now rewrite andb_false_r. }
  repeat apply conj; try exact Hf;
    rewrite Hd; unfold d0; clear d Hd Hf d0 Hfut;
    unfold NewDeadlineInfo, dline.NewInfo, dline.PeriodElapsed, dline.NextPeriodStart,
      Int64.add, Int64.sub, Int64.mul;
    (destruct (dlIdx <? WPoStPeriodDeadlines pol) eqn:E;
      [apply Z.ltb_lt in E|apply Z.ltb_ge in E]);
    cbn [dline.Index dline.Open dline.Close dline.Challenge dline.PeriodStart
         dline.WPoStProvingPeriod dline.CurrentEpoch];
    unwrap; trivial; try lia;
    try (destruct (_ <=? _) eqn:E1; destruct (_ <=? _) eqn:E2; trivial;
         rewrite ?Z.leb_le, ?Z.leb_gt in *; lia).
Qed.

(** ** More on the admitter *)

Lemma mapWithIndex_world db len l : forall idx w,
  store (snd (mapWithIndex (bid_for db len) idx l w)) = store w
  /\ calls (snd (mapWithIndex (bid_for db len) idx l w)) = calls w
  /\ task_seq (snd (mapWithIndex (bid_for db len) idx l w)) = task_seq w
  /\ issued (snd (mapWithIndex (bid_for db len) idx l w))
     = issued w ++ map (fun d => CountFailures (TaskDef.TaskID d)) l.
Proof.
  induction l as [|a l IH]; intros idx w; cbn [mapWithIndex].
  - cbn. now rewrite app_nil_r.
  - rewrite bid_for_eq.
    specialize (IH (idx + 1) (log_stmt (CountFailures (TaskDef.TaskID a)) w)).
    destruct (mapWithIndex _ _ l _) as [bs w2]. cbn [snd] in *.
    destruct IH as (Hs & Hc & Hq & Hi). rewrite Hs, Hc, Hq, Hi. cbn.
    now rewrite <- app_assoc.
Qed.

Lemma existsb_map_false {A} (f : A -> Stmt) (l : list A) :
  (forall a, is_write (f a) = false) -> existsb is_write (map f l) = false.
Proof. intros H. induction l as [|a l IH]; cbn; [|rewrite H]; trivial. Qed.

(** [CanAccept] only reads: the tables, the recorded calls and the task
    sequence are as before, and every statement it issued is a select. *)
Theorem CanAccept_reads_only pol srt t ids w :
  store (snd (CanAccept pol srt t ids w)) = store w
  /\ calls (snd (CanAccept pol srt t ids w)) = calls w
  /\ task_seq (snd (CanAccept pol srt t ids w)) = task_seq w
  /\ exists l, issued (snd (CanAccept pol srt t ids w)) = issued w ++ l
               /\ existsb is_write l = false.
Proof.
  unfold CanAccept, selectTasks.
  destruct (paramsReady t) as [[|]|e];
    try (repeat split; exists []; now rewrite app_nil_r).
  destruct (ChainHead (api t)) as [ts|e];
    [|repeat split; exists []; now rewrite app_nil_r].
  destruct (db_error (db t) _);
    [repeat split; exists [SelectTasks ids]; now split|].
  destruct (scan_rows _) as [rows|e];
    [|repeat split; exists [SelectTasks ids]; now split].
  destruct (0 <? length _)%nat;
    [repeat split; exists [SelectTasks ids]; now split|].
  match goal with
  | |- context [mapWithIndex ?f ?i ?l ?w0] =>
    destruct (mapWithIndex_world (db t) (Z.of_nat (length l)) l i w0)
      as (Hs & Hc & Hq & Hi);
    destruct (mapWithIndex f i l w0) as [bs w2]
  end.
  cbn [snd] in *. rewrite Hs, Hc, Hq, Hi. cbn. repeat split.
  eexists. rewrite <- app_assoc. split; [reflexivity|].
  cbn. now apply existsb_map_false.
Qed.

Lemma hydrated_from_table pol t ids w d :
  In d (hydrated pol t ids w) ->
  In (TaskDef.TaskID d) ids
  /\ exists row, In row (wdpost_partition_tasks (store w))
                 /\ pt_task_id row = TaskDef.TaskID d.
Proof.
  unfold hydrated.
  destruct (ChainHead (api t)) as [ts|]; [|intros []].
  destruct (scan_rows _) as [rows|] eqn:E; [|intros []].
  intros Hd. apply scan_rows_task_ids in E.
  assert (Hid : In (TaskDef.TaskID d) (map pt_task_id (rows_in ids (store w)))).
  { rewrite <- E. apply in_map_iff in Hd as (r & <- & Hr).
    apply in_map_iff. exists r. split; [|exact Hr].
    now destruct r as [[[[tid sp] pps] dl] part]. }
  apply in_map_iff in Hid as (row & Hrow & Hin).
  unfold rows_in in Hin. apply filter_In in Hin as [Hin Hmem].
  split.
  - unfold mem_id in Hmem. apply existsb_exists in Hmem as (y & Hy & Heq).
    apply Z.eqb_eq in Heq. congruence.
  - exists row. now split.
Qed.

Section Bids.

Variables (pol : Policy) (srt : SliceSorter) (t : WdPostTask).
Variables (ids : list TaskID) (w : World).

(** The task ids [CanAccept] returns are those of hydrated tasks, each as
    often as the task was hydrated. *)
Lemma CanAccept_ids_from_hydrated :
  exists tasks,
    incl tasks (hydrated pol t ids w)
    /\ (NoDup (map TaskDef.TaskID (hydrated pol t ids w)) ->
        NoDup (map TaskDef.TaskID tasks))
    /\ map harmonytask.TaskID (fst (fst (CanAccept pol srt t ids w)))
       = map TaskDef.TaskID tasks.
Proof.
  destruct (CanAccept_bids_cases pol srt t ids w) as [Hnil|[Hp Hd]].
  - exists []. rewrite Hnil. repeat split; [intros x []|constructor].
  - rewrite (CanAccept_admitted pol srt t ids w Hp Hd).
    destruct (existsb is_stale (hydrated pol t ids w)).
    + exists (filter is_stale (hydrated pol t ids w)). split; [|split].
      * intros x Hx. now apply filter_In in Hx.
      * apply NoDup_map_filter.
      * rewrite map_map. reflexivity.
    + exists (sortSlice srt by_open (hydrated pol t ids w)). split; [|split].
      * intros x Hx. eapply Permutation_in; [|exact Hx].
        apply Permutation_sym, sortSlice_perm.
      * intros Hnd. eapply Permutation_NoDup; [|exact Hnd].
        apply Permutation_map, sortSlice_perm.
      * apply mapWithIndex_bids.
Qed.

End Bids.

(** [CanAccept] bids only on tasks it was offered and found in the table,
    and with [task_id] a key of the table no task gets two bids. *)
Theorem CanAccept_bids_on_offered_tasks pol srt t ids w :
  (forall b, In b (fst (fst (CanAccept pol srt t ids w))) ->
     In (harmonytask.TaskID b) ids
     /\ exists row, In row (wdpost_partition_tasks (store w))
                    /\ pt_task_id row = harmonytask.TaskID b)
  /\ (NoDup (map pt_task_id (wdpost_partition_tasks (store w))) ->
      NoDup (map harmonytask.TaskID (fst (fst (CanAccept pol srt t ids w)))))
  /\ (ids = [] -> fst (fst (CanAccept pol srt t ids w)) = []).
Proof.
  destruct (CanAccept_ids_from_hydrated pol srt t ids w) as (tasks & Hincl & Hnd & Hmap).
  assert (Hall : forall b, In b (fst (fst (CanAccept pol srt t ids w))) ->
            In (harmonytask.TaskID b) ids
            /\ exists row, In row (wdpost_partition_tasks (store w))
                           /\ pt_task_id row = harmonytask.TaskID b).
  { intros b Hb.
    assert (Hid : In (harmonytask.TaskID b) (map TaskDef.TaskID tasks)).
    { rewrite <- Hmap. now apply in_map. }
    apply in_map_iff in Hid as (d & <- & Hd).
    apply (hydrated_from_table pol t ids w d). now apply Hincl. }
  split; [exact Hall|]. split.
  - intros Hkey. rewrite Hmap. apply Hnd. now apply hydrated_task_ids.
  - intros ->. destruct (fst (fst (CanAccept pol srt t [] w))) as [|b bs]; [reflexivity|].
    destruct (Hall b (or_introl eq_refl)) as [[] _].
Qed.

Lemma penalty_nonneg db st n taskID : 0 <= penalty db st n taskID.
Proof.
  unfold penalty. destruct (db_error db n); [lia|].
  unfold failure_count. lia.
Qed.

(** A bid for a live task is at most the size of the batch plus ten. *)
Theorem CanAccept_live_bid_bound pol srt t ids w :
  forallb is_live (hydrated pol t ids w) = true ->
  forall b, In b (fst (fst (CanAccept pol srt t ids w))) ->
    harmonytask.Bid b <= Z.of_nat (length (hydrated pol t ids w)) + 10
    /\ ((length (hydrated pol t ids w) < 990)%nat -> harmonytask.Bid b < 1000).
Proof.
  intros Hlive b Hb.
  assert (Hbound : harmonytask.Bid b <= Z.of_nat (length (hydrated pol t ids w)) + 10).
  { destruct (CanAccept_bids_cases pol srt t ids w) as [Hnil|[Hp Hd]].
    - rewrite Hnil in Hb. destruct Hb.
    - rewrite (CanAccept_live_pairs pol srt t ids w Hp Hd Hlive) in Hb.
      apply In_nth_error in Hb as (i & Hi).
      destruct (mapWithIndex_bids (db t) (Z.of_nat (length (hydrated pol t ids w)))
                  (sortSlice srt by_open (hydrated pol t ids w)) 0
                  (log_stmt (SelectTasks ids) w)) as (Hlen & _ & Hnth).
      destruct (nth_error (sortSlice srt by_open (hydrated pol t ids w)) i) as [d|] eqn:Ed.
      + rewrite (Hnth i d Ed) in Hi. injection Hi as <-. cbn.
        match goal with
        | |- context [penalty ?a ?b ?c ?e] => pose proof (penalty_nonneg a b c e)
        end.
        lia.
      + exfalso. apply nth_error_None in Ed.
        assert (nth_error (fst (mapWithIndex (bid_for (db t)
                   (Z.of_nat (length (hydrated pol t ids w)))) 0
                   (sortSlice srt by_open (hydrated pol t ids w))
                   (log_stmt (SelectTasks ids) w))) i <> None) by congruence.
        apply nth_error_Some in H. lia. }
  split; [exact Hbound|]. lia.
Qed.

(** ** The id list of the batched select *)

Lemma no_comma_uint d : no_comma (DecimalString.NilEmpty.string_of_uint d) = true.
Proof. induction d; cbn; trivial. Qed.

Lemma entToStr_no_comma t i : no_comma (entToStr t i) = true.
Proof.
  unfold entToStr, DecimalString.NilZero.string_of_int,
    DecimalString.NilZero.string_of_uint.
  destruct (Z.to_int t) as [d|d]; destruct d; cbn; trivial; apply no_comma_uint.
Qed.

Lemma entToStr_nonempty t i : entToStr t i <> EmptyString.
Proof.
  unfold entToStr, DecimalString.NilZero.string_of_int,
    DecimalString.NilZero.string_of_uint.
  destruct (Z.to_int t) as [d|d]; destruct d; cbn; discriminate.
Qed.

Lemma split_no_comma s : no_comma s = true -> split_at_commas s = [s].
Proof.
  induction s as [|c s IH]; cbn -[comma]; [reflexivity|].
  intros H. apply andb_true_iff in H as [Hc Hs].
  apply negb_true_iff in Hc. rewrite Hc, (IH Hs). reflexivity.
Qed.

Lemma split_field s rest :
  no_comma s = true ->
  split_at_commas (s ++ String comma rest) = s :: split_at_commas rest.
Proof.
  induction s as [|c s IH]; cbn -[comma].
  - intros _. change (Ascii.eqb comma comma) with true. reflexivity.
  - intros H. apply andb_true_iff in H as [Hc Hs].
    apply negb_true_iff in Hc. rewrite Hc, (IH Hs). reflexivity.
Qed.

Lemma split_concat (fields : list string) :
  fields <> [] ->
  Forall (fun f => no_comma f = true) fields ->
  split_at_commas (String.concat "," fields) = fields.
Proof.
  induction fields as [|f rest IH]; [congruence|].
  intros _ Hall. inversion Hall as [|? ? Hf Hrest]; subst.
  destruct rest as [|g rest'].
  - cbn. now apply split_no_comma.
  - change (String.concat "," (f :: g :: rest'))
      with (f ++ String comma (String.concat "," (g :: rest')))%string.
    rewrite (split_field _ _ Hf). f_equal. apply IH; [discriminate|exact Hrest].
Qed.

Lemma lo_Map_entToStr ids : forall idx,
  lo_Map_from entToStr idx ids = map (fun t => entToStr t 0) ids.
Proof. induction ids as [|t ids IH]; intros idx; cbn; [|rewrite IH]; reflexivity. Qed.

Lemma to_bigint_entToStr t i : in_int64 t = true -> to_bigint (entToStr t i) = Some t.
Proof.
  intros Hr. unfold to_bigint, entToStr.
  rewrite DecimalString.NilZero.isi.
  - now rewrite DecimalZ.of_to, Hr.
  - destruct t; cbn; try discriminate.
    intros [= H]. now apply DecimalPos.Unsigned.to_uint_nonnil in H.
  - destruct t; cbn; try discriminate.
    intros [= H]. now apply DecimalPos.Unsigned.to_uint_nonnil in H.
Qed.

Lemma concat_nonempty (fields : list string) :
  fields <> [] -> Forall (fun f => f <> EmptyString) fields ->
  String.concat "," fields <> EmptyString.
Proof.
  destruct fields as [|f rest]; [congruence|].
  intros _ Hall. inversion Hall as [|? ? Hf _]; subst.
  destruct rest; cbn; [exact Hf|]. destruct f; [congruence|discriminate].
Qed.

(** The ids written into the argument of the batched select are the ids the
    select reads out of it. *)
Theorem idList_round_trip ids :
  forallb in_int64 ids = true ->
  decodeIdList (idList ids) = Some ids.
Proof.
  intros Hr. unfold decodeIdList, idList, lo_Map. rewrite lo_Map_entToStr.
  destruct ids as [|t ids]; [reflexivity|].
  set (fields := map (fun t => entToStr t 0) (t :: ids)).
  assert (Hne : fields <> []) by discriminate.
  assert (Hstr : String.concat "," fields <> EmptyString).
  { apply concat_nonempty; [exact Hne|]. unfold fields.
    apply Forall_forall. intros f Hf. apply in_map_iff in Hf as (x & <- & _).
    apply entToStr_nonempty. }
  unfold string_to_array.
  destruct (String.concat "," fields) eqn:E; [congruence|]. rewrite <- E.
  rewrite split_concat; [|exact Hne|].
  - unfold fields. clear -Hr. revert Hr. generalize (t :: ids) as l.
    induction l as [|x l IH]; intros Hr; [reflexivity|].
    cbn in Hr. apply andb_true_iff in Hr as [Hx Hl].
    cbn. rewrite (to_bigint_entToStr x 0 Hx), (IH Hl). reflexivity.
  - unfold fields. apply Forall_forall. intros f Hf.
    apply in_map_iff in Hf as (x & <- & _). apply entToStr_no_comma.
Qed.

Lemma idList_round_trip_witness :
  decodeIdList (idList [7; -3; 0; 1024]) = Some [7; -3; 0; 1024].
Proof. exact (idList_round_trip [7; -3; 0; 1024] eq_refl). Defined.

(** ** More on the watcher *)

Lemma rangePartitions_result t aid di pidxs : forall w,
  fst (rangePartitions t aid di pidxs w) =
  match windowPoStTF t, pidxs with
  | None, _ :: _ => Some "no task func"%string
  | _, _ => None
  end.
Proof.
  induction pidxs as [|p rest IH]; intros w; cbn [rangePartitions].
  - now destruct (windowPoStTF t).
  - destruct (windowPoStTF t) as [tf|] eqn:E; [|reflexivity].
    rewrite IH. now destruct rest.
Qed.

(** What [processHeadChange] returns depends on the answers of the chain
    and on whether a task factory is set, not on the world it runs in:
    no failure of the factory or of the database is reported. *)
Theorem processHeadChange_result_ignores_store t visit revert apply w w' :
  fst (processHeadChange t visit revert apply w)
  = fst (processHeadChange t visit revert apply w').
Proof.
  unfold processHeadChange. revert w w'.
  induction visit as [|maddr rest IH]; intros w w'; cbn [rangeActors]; [reflexivity|].
  destruct (IDFromAddress maddr) as [aid|e]; [|reflexivity].
  destruct (StateMinerProvingDeadline (api t) maddr (Key apply)) as [di|e];
    [|reflexivity].
  destruct (negb (dline.PeriodStarted di)); [reflexivity|].
  destruct (StateMinerPartitions (api t) maddr (dline.Index di) (Key apply))
    as [parts|e]; [|reflexivity].
  pose proof (rangePartitions_result t aid di (indices parts) w) as H1.
  pose proof (rangePartitions_result t aid di (indices parts) w') as H2.
  destruct (rangePartitions t aid di (indices parts) w) as [e1 w1].
  destruct (rangePartitions t aid di (indices parts) w') as [e2 w2].
  cbn [fst] in H1, H2. rewrite H1, H2.
  destruct (windowPoStTF t); [apply IH|].
  destruct (indices parts); [apply IH|reflexivity].
Qed.

(** Without a task factory the watcher changes nothing, and it reports
    "no task func" whenever there is a partition to propose. *)
Theorem processHeadChange_without_factory t visit revert apply w :
  windowPoStTF t = None ->
  snd (processHeadChange t visit revert apply w) = w
  /\ (proposed t apply visit <> [] ->
      fst (processHeadChange t visit revert apply w) = Some "no task func"%string).
Proof.
  intros Hnone. unfold processHeadChange.
  induction visit as [|maddr rest IH]; cbn [rangeActors proposed];
    [split; [reflexivity|congruence]|].
  destruct (IDFromAddress maddr) as [aid|e]; [|split; [reflexivity|congruence]].
  destruct (StateMinerProvingDeadline (api t) maddr (Key apply)) as [di|e];
    [|split; [reflexivity|congruence]].
  destruct (negb (dline.PeriodStarted di)); [split; [reflexivity|congruence]|].
  destruct (StateMinerPartitions (api t) maddr (dline.Index di) (Key apply))
    as [parts|e]; [|split; [reflexivity|congruence]].
  destruct (indices parts) as [|p ps] eqn:Ep; cbn [rangePartitions map app].
  - exact IH.
  - rewrite Hnone. split; [reflexivity|reflexivity].
Qed.

Lemma processHeadChange_without_factory_witness :
  snd (processHeadChange
         RamScenario.noFactory
         [Scenario.minerB] (Scenario.headAt 119) (Scenario.headAt 120)
         (Scenario.worldOf Scenario.emptyStore 1))
  = Scenario.worldOf Scenario.emptyStore 1.
Proof.
  exact (proj1 (processHeadChange_without_factory
                  RamScenario.noFactory
                  [Scenario.minerB] (Scenario.headAt 119) (Scenario.headAt 120)
                  (Scenario.worldOf Scenario.emptyStore 1) eq_refl)).
Defined.

Section Appends.

Variables (t : WdPostTask) (apply : TipSet).
Hypothesis Hfactory : windowPoStTF t = Some AddTask.

Lemma extends_refl ids w : extends_with ids w w.
Proof. exists []. rewrite app_nil_r. repeat split; trivial; lia. Qed.

Lemma extends_trans ids1 ids2 w1 w2 w3 :
  extends_with ids1 w1 w2 -> extends_with ids2 w2 w3 ->
  extends_with (ids1 ++ ids2) w1 w3.
Proof.
  intros (r1 & Ht1 & Hf1 & Hp1 & Hh1 & Hy1 & Hc1 & Hs1)
         (r2 & Ht2 & Hf2 & Hp2 & Hh2 & Hy2 & Hc2 & Hs2).
  exists (r1 ++ r2). rewrite Ht2, Ht1, app_assoc.
  repeat split; try congruence; try lia.
  apply Forall_app. split.
  - eapply Forall_impl; [|exact Hf1]. cbn. intros r [Hin Hid].
    split; [apply in_or_app; now left|lia].
  - eapply Forall_impl; [|exact Hf2]. cbn. intros r [Hin Hid].
    split; [apply in_or_app; now right|lia].
Qed.

Lemma AddTask_extends tid w :
  extends_with [tid] w (AddTask (fun id tx => addTaskToDB (db t) id tid tx) w).
Proof.
  pose proof (AddTask_cases (db t) tid w) as Hcases.
  set (w' := AddTask _ w) in *.
  assert (Hseq : task_seq w' = task_seq w + 1
                 /\ calls w' = calls w).
  { unfold w', AddTask, addTaskToDB, execInsertTask.
    destruct (db_error (db t) _); [now split|].
    destruct (unique_violation _ _); [now split|].
    destruct (db_discards (db t) _); now split. }
  destruct Hseq as [Hseq Hcalls].
  destruct Hcases as [E|[_ E]].
  - exists []. rewrite E, app_nil_r. repeat split; trivial; lia.
  - exists [ {| pt_task_id := task_seq w; pt_identity := tid |} ].
    rewrite E. cbn. repeat split; trivial; try lia.
    constructor; [|constructor]. cbn. split; [now left|lia].
Qed.

Lemma rangePartitions_extends aid di pidxs : forall w,
  extends_with (map (identity_of aid di) pidxs) w
               (snd (rangePartitions t aid di pidxs w)).
Proof.
  induction pidxs as [|p rest IH]; intros w; cbn [rangePartitions map].
  - apply extends_refl.
  - rewrite Hfactory.
    apply (extends_trans [identity_of aid di p] _ w _ _ (AddTask_extends _ w)).
    apply IH.
Qed.

Lemma rangeActors_extends visit : forall w,
  extends_with (proposed t apply visit) w (snd (rangeActors t apply visit w)).
Proof.
  induction visit as [|maddr rest IH]; intros w; cbn [rangeActors proposed].
  - apply extends_refl.
  - destruct (IDFromAddress maddr) as [aid|e]; [|apply extends_refl].
    destruct (StateMinerProvingDeadline (api t) maddr (Key apply)) as [di|e];
      [|apply extends_refl].
    destruct (negb (dline.PeriodStarted di)); [apply extends_refl|].
    destruct (StateMinerPartitions (api t) maddr (dline.Index di) (Key apply))
      as [parts|e]; [|apply extends_refl].
    pose proof (rangePartitions_extends aid di (indices parts) w) as H1.
    pose proof (rangePartitions_result t aid di (indices parts) w) as He.
    destruct (rangePartitions t aid di (indices parts) w) as [err w1].
    cbn [fst snd] in *. rewrite Hfactory in He. subst err.
    exact (extends_trans _ _ _ _ _ H1 (IH w1)).
Qed.

End Appends.

(** With the task factory of the runtime, a run of the watcher only
    appends to the task table: the rows that were there stay in place, the
    new rows carry identities the run proposed and task ids taken from the
    sequence, and no other table and no collaborator is touched, whatever
    the database does. *)
Theorem processHeadChange_appends_proposed t visit revert apply w :
  windowPoStTF t = Some AddTask ->
  exists rows,
    wdpost_partition_tasks (store (snd (processHeadChange t visit revert apply w)))
    = wdpost_partition_tasks (store w) ++ rows
    /\ Forall (fun r => In (pt_identity r) (proposed t apply visit)
                        /\ task_seq w <= pt_task_id r) rows
    /\ wdpost_proofs (store (snd (processHeadChange t visit revert apply w)))
       = wdpost_proofs (store w)
    /\ harmony_test (store (snd (processHeadChange t visit revert apply w)))
       = harmony_test (store w)
    /\ harmony_task_history (store (snd (processHeadChange t visit revert apply w)))
       = harmony_task_history (store w)
    /\ calls (snd (processHeadChange t visit revert apply w)) = calls w.
Proof.
  intros Hf.
  destruct (rangeActors_extends t apply Hf visit w)
    as (rows & Ht & Hrows & Hp & Hh & Hy & Hc & _).
  exists rows. unfold processHeadChange. repeat split; trivial.
  eapply Forall_impl; [|exact Hrows]. cbn. intros r [Hin Hid]. split; [exact Hin|lia].
Qed.

(** ** From the watcher to the prover *)

Lemma find_app_new {A} (p : A -> bool) l x :
  existsb p l = false -> p x = true -> find p (l ++ [x]) = Some x.
Proof.
  induction l as [|a l IH]; cbn; intros Hl Hx; [now rewrite Hx|].
  apply orb_false_iff in Hl as [Ha Hl]. rewrite Ha. now apply IH.
Qed.

Lemma scan_uint64_nonneg v : 0 <= v -> scan_uint64 v = Ok v.
Proof.
  intros H. unfold scan_uint64.
  replace (v <? 0) with false; [reflexivity|]. symmetry. apply Z.ltb_ge. lia.
Qed.

(** A task [addTaskToDB] has stored is the task the identity query of [Do]
    finds under its id. *)
Theorem enqueued_task_is_found db taskId ident w w' :
  addTaskToDB db taskId ident w = ((true, None), w') ->
  db_discards db (length (issued w)) = false ->
  0 <= SpID ident -> 0 <= ProvingPeriodStart ident ->
  0 <= DeadlineIndex ident -> 0 <= PartitionIndex ident ->
  db_error db (length (issued w')) = None ->
  fst (queryIdentity db taskId w')
  = Ok (SpID ident, ProvingPeriodStart ident, DeadlineIndex ident, PartitionIndex ident).
Proof.
  unfold addTaskToDB, execInsertTask, unique_violation.
  destruct (db_error db (length (issued w))); [discriminate|].
  cbn [pt_task_id pt_identity].
  destruct (has_task_id taskId (store w)) eqn:Hid; [discriminate|].
  destruct (has_identity ident (store w)); [discriminate|].
  intros H Hdis. rewrite Hdis in H. injection H as <-.
  intros Hsp Hpps Hdl Hpart Herr.
  unfold queryIdentity. rewrite Herr.
  cbn [store set_store add_task_row wdpost_partition_tasks log_stmt].
  rewrite (find_app_new _ _ {| pt_task_id := taskId; pt_identity := ident |} Hid)
    by (cbn; apply Z.eqb_refl).
  cbn [pt_identity].
  rewrite !scan_uint64_nonneg by assumption. reflexivity.
Qed.

Lemma enqueued_task_is_found_witness :
  fst (queryIdentity no_faults 1
         (snd (addTaskToDB no_faults 1 (mkIdentity 1001 0 2 0)
                 (Scenario.worldOf Scenario.emptyStore 1))))
  = Ok (1001, 0, 2, 0).
Proof.
  refine (enqueued_task_is_found no_faults 1 (mkIdentity 1001 0 2 0)
            (Scenario.worldOf Scenario.emptyStore 1) _ eq_refl eq_refl _ _ _ _ eq_refl);
    cbn; lia.
Defined.

(** ** The resource claim *)

Lemma ramCapacity_fold res keys : forall init,
  fold_left (fun i k => if MaxMemory (res_at res k) <? i
                        then MaxMemory (res_at res k) else i) keys init <= init
  /\ (forall k, In k keys ->
        fold_left (fun i k => if MaxMemory (res_at res k) <? i
                              then MaxMemory (res_at res k) else i) keys init
        <= MaxMemory (res_at res k))
  /\ (fold_left (fun i k => if MaxMemory (res_at res k) <? i
                            then MaxMemory (res_at res k) else i) keys init = init
      \/ exists k, In k keys
           /\ fold_left (fun i k => if MaxMemory (res_at res k) <? i
                                    then MaxMemory (res_at res k) else i) keys init
              = MaxMemory (res_at res k)).
Proof.
  induction keys as [|k keys IH]; intros init; cbn [fold_left].
  - split; [lia|]. split; [intros k []|now left].
  - set (m := MaxMemory (res_at res k)).
    destruct (IH (if m <? init then m else init)) as (Hle & Hall & Hatt).
    assert (Hstep : (if m <? init then m else init) <= init
                    /\ (if m <? init then m else init) <= m).
    { destruct (m <? init) eqn:E; [apply Z.ltb_lt in E|apply Z.ltb_ge in E]; lia. }
    split; [lia|]. split.
    + intros k' [<-|Hin]; [fold m; lia|now apply Hall].
    + destruct Hatt as [Heq|(k' & Hin & Heq)].
      * destruct (m <? init) eqn:E.
        -- right. exists k. split; [now left|]. now rewrite Heq.
        -- now left.
      * right. exists k'. split; [now right|exact Heq].
Qed.

(** The RAM the task type advertises is the smallest [MaxMemory] of the
    resource table (or [1 << 63] for an empty table), in whatever order the
    keys of the table are visited. *)
Theorem ramCapacity_is_minimum res keys :
  (forall k, In k keys -> ramCapacity res keys <= MaxMemory (res_at res k))
  /\ ramCapacity res keys <= 2 ^ 63
  /\ (ramCapacity res keys = 2 ^ 63
      \/ exists k, In k keys /\ ramCapacity res keys = MaxMemory (res_at res k))
  /\ (forall keys', Permutation keys keys' ->
        ramCapacity res keys' = ramCapacity res keys).
Proof.
  destruct (ramCapacity_fold res keys (2 ^ 63)) as (Hle & Hall & Hatt).
  fold (ramCapacity res keys) in Hle, Hall, Hatt.
  repeat split; trivial.
  intros keys' Hperm.
  destruct (ramCapacity_fold res keys' (2 ^ 63)) as (Hle' & Hall' & Hatt').
  fold (ramCapacity res keys') in Hle', Hall', Hatt'.
  apply Z.le_antisymm.
  - destruct Hatt as [->|(k & Hin & ->)]; [exact Hle'|].
    apply Hall'. eapply Permutation_in; eauto.
  - destruct Hatt' as [->|(k & Hin & ->)]; [exact Hle|].
    apply Hall. eapply Permutation_in; [apply Permutation_sym|]; eauto.
Qed.

(** What [Claim] asks for is never below the advertised RAM when the seal
    proof type of the miner is in the resource table; for a type the table
    does not have it asks for nothing. *)
Theorem Claim_at_least_capacity res r taskID st keys m :
  Claim res r taskID st = Ok m ->
  exists spID maddr ts mi spt,
    querySpID r taskID st = Ok spID
    /\ NewIDAddress spID = Ok maddr
    /\ ChainHead (Api r) = Ok ts
    /\ StateMinerInfo r maddr (Key ts) = Ok mi
    /\ GetSealProofFromPoStProof r (WindowPoStProofType mi) = Ok spt
    /\ m = MaxMemory (res_at res spt)
    /\ (In spt keys -> ramCapacity res keys <= m)
    /\ (find (fun e => fst e =? spt) res = None -> m = 0).
Proof.
  unfold Claim.
  destruct (querySpID r taskID st) as [spID|] eqn:E1; [|discriminate].
  destruct (NewIDAddress spID) as [maddr|] eqn:E2; [|discriminate].
  destruct (ChainHead (Api r)) as [ts|] eqn:E3; [|discriminate].
  destruct (StateMinerInfo r maddr (Key ts)) as [mi|] eqn:E4; [|discriminate].
  destruct (GetSealProofFromPoStProof r (WindowPoStProofType mi)) as [spt|] eqn:E5;
    [|discriminate].
  intros [= <-]. exists spID, maddr, ts, mi, spt. repeat split; trivial.
  - intros Hin. now apply (ramCapacity_fold res keys (2 ^ 63)).
  - intros Hnone. unfold res_at. now rewrite Hnone.
Qed.

Lemma Claim_at_least_capacity_witness :
  exists spID maddr ts mi spt,
    querySpID RamScenario.ram 7 (store Scenario.oneTask) = Ok spID
    /\ NewIDAddress spID = Ok maddr
    /\ ChainHead (Api RamScenario.ram) = Ok ts
    /\ StateMinerInfo RamScenario.ram maddr (Key ts) = Ok mi
    /\ GetSealProofFromPoStProof RamScenario.ram (WindowPoStProofType mi) = Ok spt
    /\ 96 * 2 ^ 30 = MaxMemory (res_at RamScenario.table spt)
    /\ (In spt [9; 3; 8] -> ramCapacity RamScenario.table [9; 3; 8] <= 96 * 2 ^ 30)
    /\ (find (fun e => fst e =? spt) RamScenario.table = None -> 96 * 2 ^ 30 = 0).
Proof.
  exact (Claim_at_least_capacity RamScenario.table RamScenario.ram 7
           (store Scenario.oneTask) [9; 3; 8] (96 * 2 ^ 30) eq_refl).
Defined.

(** The advertised RAM of the example table is that of its smallest entry. *)
Example ramCapacity_example :
  ramCapacity RamScenario.table [9; 3; 8] = 2 ^ 30
  /\ ramCapacity RamScenario.table [] = 2 ^ 63.
Proof. split; reflexivity. Qed.

(** ** What [Do] writes *)

Lemma update_test_result_rows taskID data st :
  map ht_task_id (harmony_test (update_test_result taskID data st))
  = map ht_task_id (harmony_test st)
  /\ (forall r, In r (harmony_test st) -> ht_task_id r <> taskID ->
        In r (harmony_test (update_test_result taskID data st)))
  /\ (forall r, In r (harmony_test (update_test_result taskID data st)) ->
        ht_task_id r = taskID -> ht_result r = Some data).
Proof.
  cbn [update_test_result harmony_test]. split; [|split].
  - rewrite map_map. apply map_ext. intros r. now destruct (ht_task_id r =? taskID).
  - intros r Hin Hne. apply in_map_iff. exists r. split; [|exact Hin].
    destruct (ht_task_id r =? taskID) eqn:E; [|reflexivity].
    apply Z.eqb_eq in E. contradiction.
  - intros r Hin Hid. apply in_map_iff in Hin as (r0 & Hr & _).
    destruct (ht_task_id r0 =? taskID) eqn:E.
    + now subst r.
    + subst r0. apply Z.eqb_neq in E. contradiction.
Qed.

(** Whatever path [Do] takes, it writes at most once: the store is as it
    was, or [wdpost_proofs] has gained one row, or the result of the
    [harmony_test] rows of this task has been set, the last two only
    together with success and never both. The task table and the history
    are never written, no [harmony_test] row is added or removed, and the
    rows of other tasks stay as they are. *)
Theorem Do_writes_at_most_once pol t taskID w :
  wdpost_partition_tasks (store (snd (Do pol t taskID w)))
    = wdpost_partition_tasks (store w)
  /\ harmony_task_history (store (snd (Do pol t taskID w)))
     = harmony_task_history (store w)
  /\ map ht_task_id (harmony_test (store (snd (Do pol t taskID w))))
     = map ht_task_id (harmony_test (store w))
  /\ (forall r, In r (harmony_test (store w)) -> ht_task_id r <> taskID ->
        In r (harmony_test (store (snd (Do pol t taskID w)))))
  /\ (store (snd (Do pol t taskID w)) = store w
      \/ (fst (Do pol t taskID w) = (true, None)
          /\ harmony_test (store (snd (Do pol t taskID w))) = harmony_test (store w)
          /\ exists row,
               wdpost_proofs (store (snd (Do pol t taskID w)))
               = wdpost_proofs (store w) ++ [row])
      \/ (fst (Do pol t taskID w) = (true, None)
          /\ wdpost_proofs (store (snd (Do pol t taskID w))) = wdpost_proofs (store w)
          /\ exists data,
               harmony_test (store (snd (Do pol t taskID w)))
               = harmony_test (update_test_result taskID data (store w)))).
Proof.
  destruct (Do_store_cases pol t taskID w) as [E|[[Hok [row E]]|[Hok [data E]]]];
    rewrite E.
  - repeat split; trivial. now left.
  - repeat split; trivial. right. left. repeat split; trivial. now exists row.
  - destruct (update_test_result_rows taskID data (store w)) as (Hids & Hothers & _).
    repeat split; trivial. right. right. repeat split; trivial. now exists data.
Qed.

(** A test task is diverted: with a row in [harmony_test] and a test-row
    query that answers, a run whose proof generation and encodings succeed
    writes the rendered document into the rows of the task and nothing into
    [wdpost_proofs], whether or not the period of its deadline has elapsed;
    it reports success whenever the update returns no error, without
    looking at the number of rows the update touched. *)
Theorem Do_test_task_diverted pol t taskID w spID pps dlIdx partIdx head maddr
    ts postOut msgbuf data :
  let deadline := effective_deadline pol pps dlIdx head true in
  let n := (length (issued w) + 2)%nat in
  fst (queryIdentity (db t) taskID w) = Ok (spID, pps, dlIdx, partIdx) ->
  ChainHead (api t) = Ok head ->
  0 < count_test_rows (store w) taskID ->
  db_error (db t) (S (length (issued w))) = None ->
  NewIDAddress spID = Ok maddr ->
  ChainGetTipSetAfterHeight (api t) (dline.Challenge deadline) (Key head) = Ok ts ->
  DoPartition t ts maddr deadline partIdx = Ok postOut ->
  MarshalCBOR t postOut = Ok msgbuf ->
  MarshalIndent t (test_doc spID pps partIdx deadline postOut msgbuf) = Ok data ->
  wdpost_proofs (store (snd (Do pol t taskID w))) = wdpost_proofs (store w)
  /\ calls (snd (Do pol t taskID w))
     = calls w ++ [CallDoPartition ts maddr deadline partIdx]
  /\ issued (snd (Do pol t taskID w))
     = issued w ++ [SelectIdentity taskID; CountHarmonyTest taskID;
                    UpdateHarmonyTest taskID data]
  /\ (db_error (db t) n = None -> fst (Do pol t taskID w) = (true, None))
  /\ (db_error (db t) n = None -> db_discards (db t) n = false ->
      store (snd (Do pol t taskID w)) = update_test_result taskID data (store w)
      /\ forall r, In r (harmony_test (store (snd (Do pol t taskID w)))) ->
           ht_task_id r = taskID -> ht_result r = Some data)
  /\ (forall e, db_error (db t) n = Some e ->
      fst (Do pol t taskID w) = (false, Some (wrapErr "updating harmony_test" e))
      /\ store (snd (Do pol t taskID w)) = store w).
Proof.
  intros deadline n Hid Hhead Htest Hquery Haddr Hts Hproof Hcbor Hjson.
  rewrite (Do_test_update pol t taskID w spID pps dlIdx partIdx head maddr ts
             postOut msgbuf data Hid Hhead Htest Hquery Haddr Hts Hproof Hcbor Hjson).
  fold deadline n. cbv zeta.
  split; [|split; [|split; [|split; [|split]]]].
  - now destruct (db_error (db t) n); [|destruct (db_discards (db t) n)].
  - now destruct (db_error (db t) n); [|destruct (db_discards (db t) n)].
  - destruct (db_error (db t) n); [|destruct (db_discards (db t) n)];
      cbn; now rewrite <- !app_assoc.
  - intros ->. now destruct (db_discards (db t) n).
  - intros -> ->. cbn [snd store set_store]. split; [reflexivity|].
    apply update_test_result_rows.
  - intros e ->. now split.
Qed.

Lemma Do_test_task_diverted_witness :
  wdpost_proofs
    (store (snd (Do mainnet (Scenario.task 150 no_faults) 7 Scenario.oneTestTask)))
  = wdpost_proofs (store Scenario.oneTestTask)
  /\ calls (snd (Do mainnet (Scenario.task 150 no_faults) 7 Scenario.oneTestTask))
     = calls Scenario.oneTestTask
       ++ [CallDoPartition {| Height := 100; Key := ["challenge"%string] |}
             (IDAddr 1001) (effective_deadline mainnet 0 2 (Scenario.headAt 150) true) 0].
Proof.
  pose proof (Do_test_task_diverted mainnet (Scenario.task 150 no_faults) 7
                Scenario.oneTestTask 1001 0 2 0 (Scenario.headAt 150) (IDAddr 1001)
                {| Height := 100; Key := ["challenge"%string] |} Scenario.aProof []
                "{}"%string eq_refl eq_refl eq_refl eq_refl eq_refl eq_refl eq_refl
                eq_refl eq_refl) as H.
  split; [exact (proj1 H) | exact (proj1 (proj2 H))].
Defined.

(** A test task whose period elapsed long ago still runs, one period back. *)
Example Do_stale_test_task_runs :
  dline.PeriodElapsed (NewDeadlineInfo mainnet 0 2 10000) = true
  /\ fst (Do mainnet (Scenario.task 10000 no_faults) 7 Scenario.oneTestTask)
     = (true, None)
  /\ harmony_test
       (store (snd (Do mainnet (Scenario.task 10000 no_faults) 7 Scenario.oneTestTask)))
     = [ {| ht_task_id := 7; ht_result := Some "{}"%string |} ].
Proof. repeat split. Qed.

(** ** From the admitter to the prover *)

Lemma scan_rows_In l : forall rows r,
  scan_rows l = Ok rows -> In r rows ->
  exists row, In row l /\ scan_task_row row = Ok r.
Proof.
  induction l as [|row l IH]; intros rows r; cbn.
  - intros [= <-] [].
  - destruct (scan_task_row row) as [x|] eqn:Ex; [|discriminate].
    destruct (scan_rows l) as [xs|]; [|discriminate].
    intros [= <-] [<-|Hin].
    + exists row. split; [now left|exact Ex].
    + destruct (IH xs r eq_refl Hin) as (row' & Hin' & Hs).
      exists row'. split; [now right|exact Hs].
Qed.

Lemma find_by_key (l : list PartitionTaskRow) row :
  NoDup (map pt_task_id l) -> In row l ->
  find (fun r => pt_task_id r =? pt_task_id row) l = Some row.
Proof.
  induction l as [|a l IH]; cbn; [intros _ []|].
  intros Hnd. inversion Hnd as [|? ? Hnot Hrest]; subst.
  intros [->|Hin]; [now rewrite Z.eqb_refl|].
  destruct (pt_task_id a =? pt_task_id row) eqn:E; [|now apply IH].
  exfalso. apply Hnot. apply Z.eqb_eq in E. rewrite E. now apply in_map.
Qed.

(** The stale exit of [Do], for a task that has no test row. *)
Lemma Do_stale_exit pol t taskID w spID pps dlIdx partIdx head :
  fst (queryIdentity (db t) taskID w) = Ok (spID, pps, dlIdx, partIdx) ->
  ChainHead (api t) = Ok head ->
  dline.PeriodElapsed (NewDeadlineInfo pol (Int64.wrap pps) dlIdx (Height head)) = true ->
  count_test_rows (store w) taskID = 0 ->
  fst (Do pol t taskID w) = (true, None) /\ store (snd (Do pol t taskID w)) = store w.
Proof.
  intros Hq Hh Hel Hc.
  pose proof (queryIdentity_world (db t) taskID w) as Hw.
  destruct (queryIdentity (db t) taskID w) as [q w1] eqn:Eq.
  simpl in Hq, Hw. subst q w1.
  do_steps. step Eq. step Hh. step Hel.
  rewrite (isTestTask_no_row DoResult t taskID (log_stmt (SelectIdentity taskID) w) Hc).
  now split.
Qed.

(** A bid [CanAccept] gave in a batch with a stale task leads to a reap:
    run at the same head or a later one, on the table as it was, [Do]
    returns success and writes nothing, provided the task has no test row
    and the identity query answers. *)
Theorem stale_bid_is_reaped pol srt t1 t2 ids w1 w2 b head1 head2 :
  ChainHead (api t1) = Ok head1 ->
  ChainHead (api t2) = Ok head2 ->
  Height head1 <= Height head2 ->
  existsb is_stale (hydrated pol t1 ids w1) = true ->
  In b (fst (fst (CanAccept pol srt t1 ids w1))) ->
  store w2 = store w1 ->
  NoDup (map pt_task_id (wdpost_partition_tasks (store w1))) ->
  Forall (fun r => 0 <= ProvingPeriodStart (pt_identity r) <= Int64.max)
         (wdpost_partition_tasks (store w1)) ->
  db_error (db t2) (length (issued w2)) = None ->
  count_test_rows (store w2) (harmonytask.TaskID b) = 0 ->
  fst (Do pol t2 (harmonytask.TaskID b) w2) = (true, None)
  /\ store (snd (Do pol t2 (harmonytask.TaskID b) w2)) = store w2.
Proof.
  intros Hh1 Hh2 Hle Hstale Hb Hst Hkey Hpps Hdb Hnotest.
  destruct (CanAccept_stale_pairs pol srt t1 ids w1 Hstale b Hb)
    as (d & Hd & Hs & ->).
  cbn [stale_bid harmonytask.TaskID] in *.
  unfold hydrated in Hd. rewrite Hh1 in Hd.
  destruct (scan_rows (rows_in ids (store w1))) as [rows|] eqn:Escan; [|destruct Hd].
  apply in_map_iff in Hd as (r & <- & Hr).
  destruct (scan_rows_In _ _ r Escan Hr) as (row & Hrow & Hscan).
  unfold rows_in in Hrow. apply filter_In in Hrow as [Hrow _].
  unfold scan_task_row in Hscan.
  destruct (scan_uint64 (SpID (pt_identity row))) as [sp|] eqn:Esp; [|discriminate].
  destruct (scan_uint64 (DeadlineIndex (pt_identity row))) as [dl|] eqn:Edl;
    [|discriminate].
  destruct (scan_uint64 (PartitionIndex (pt_identity row))) as [part|] eqn:Epart;
    [|discriminate].
  injection Hscan as <-. cbn [with_dlInfo TaskDef.TaskID] in *.
  rewrite Forall_forall in Hpps. specialize (Hpps row Hrow).
  apply (Do_stale_exit pol t2 (pt_task_id row) w2 sp
           (ProvingPeriodStart (pt_identity row)) dl part head2).
  - unfold queryIdentity. rewrite Hdb, Hst, (find_by_key _ row Hkey Hrow).
    rewrite Esp, Edl, Epart, scan_uint64_nonneg by lia. reflexivity.
  - exact Hh2.
  - rewrite wrap_in_range by (unfold Int64.in_range, Int64.half; lia).
    eapply PeriodElapsed_monotone; [|exact Hle].
    unfold is_stale in Hs. cbn [TaskDef.dlInfo] in Hs. exact Hs.
  - exact Hnotest.
Qed.

Lemma stale_bid_is_reaped_witness :
  fst (Do mainnet (Scenario.task 12000 no_faults) 2 Scenario.staleAndLive) = (true, None)
  /\ store (snd (Do mainnet (Scenario.task 12000 no_faults) 2 Scenario.staleAndLive))
     = store Scenario.staleAndLive.
Proof.
  refine (stale_bid_is_reaped mainnet goSort (Scenario.task 10000 no_faults)
            (Scenario.task 12000 no_faults) [1; 2] Scenario.staleAndLive
            Scenario.staleAndLive {| harmonytask.TaskID := 2; harmonytask.Bid := 1000 |}
            (Scenario.headAt 10000) (Scenario.headAt 12000)
            eq_refl eq_refl _ eq_refl (or_introl eq_refl) eq_refl _ _ eq_refl eq_refl).
  - cbn. lia.
  - cbn. repeat constructor; cbn; intuition lia.
  - cbn. repeat constructor; cbn; unfold Int64.max, Int64.half; lia.
Defined.

(** ** Witnesses *)

Lemma Do_success_without_proof_is_reap_witness :
  exists spID pps dlIdx partIdx head,
    fst (queryIdentity (db (Scenario.task 10000 no_faults)) 7 Scenario.oneTask)
    = Ok (spID, pps, dlIdx, partIdx)
    /\ ChainHead (api (Scenario.task 10000 no_faults)) = Ok head
    /\ dline.PeriodElapsed
         (NewDeadlineInfo mainnet (Int64.wrap pps) dlIdx (Height head)) = true
    /\ store (snd (Do mainnet (Scenario.task 10000 no_faults) 7 Scenario.oneTask))
       = store Scenario.oneTask.
Proof.
  exact (Do_success_without_proof_is_reap mainnet (Scenario.task 10000 no_faults) 7
           Scenario.oneTask eq_refl eq_refl).
Defined.

Lemma Do_inserted_row_provenance_witness :
  exists spID pps dlIdx partIdx head maddr ts postOut msgbuf,
    fst (queryIdentity (db (Scenario.task 150 no_faults)) 7 Scenario.oneTask)
    = Ok (spID, pps, dlIdx, partIdx)
    /\ ChainHead (api (Scenario.task 150 no_faults)) = Ok head
    /\ dline.PeriodElapsed
         (NewDeadlineInfo mainnet (Int64.wrap pps) dlIdx (Height head)) = false
    /\ NewIDAddress spID = Ok maddr
    /\ ChainGetTipSetAfterHeight (api (Scenario.task 150 no_faults))
         (dline.Challenge (NewDeadlineInfo mainnet (Int64.wrap pps) dlIdx (Height head)))
         (Key head) = Ok ts
    /\ DoPartition (Scenario.task 150 no_faults) ts maddr
         (NewDeadlineInfo mainnet (Int64.wrap pps) dlIdx (Height head)) partIdx
       = Ok postOut
    /\ MarshalCBOR (Scenario.task 150 no_faults) postOut = Ok msgbuf
    /\ proof_row 1001 0 0 (NewDeadlineInfo mainnet 0 2 150) []
       = proof_row spID pps partIdx
           (NewDeadlineInfo mainnet (Int64.wrap pps) dlIdx (Height head)) msgbuf
    /\ fst (Do mainnet (Scenario.task 150 no_faults) 7 Scenario.oneTask) = (true, None).
Proof.
  exact (Do_inserted_row_provenance mainnet (Scenario.task 150 no_faults) 7
           Scenario.oneTask (proof_row 1001 0 0 (NewDeadlineInfo mainnet 0 2 150) [])
           eq_refl).
Defined.

Lemma CanAccept_live_bid_bound_witness :
  harmonytask.Bid {| harmonytask.TaskID := 1; harmonytask.Bid := 13 |}
  <= Z.of_nat (length (hydrated mainnet (Scenario.task 400 no_faults) [1; 2; 3]
                         Scenario.threeLive)) + 10.
Proof.
  exact (proj1 (CanAccept_live_bid_bound mainnet goSort (Scenario.task 400 no_faults)
                  [1; 2; 3] Scenario.threeLive eq_refl
                  {| harmonytask.TaskID := 1; harmonytask.Bid := 13 |}
                  (or_introl eq_refl))).
Defined.

Lemma test_deadline_one_period_back_witness :
  dline.Challenge (effective_deadline mainnet 0 2 (Scenario.headAt 50) true)
  = dline.Challenge (NewDeadlineInfo mainnet (Int64.wrap 0) 2 50)
    - WPoStProvingPeriod mainnet.
Proof.
  refine (proj1 (proj2 (proj2 (proj2
            (test_deadline_one_period_back mainnet 0 2 (Scenario.headAt 50) _ _ _ _ _)))));
    unfold small_policy, small_epoch; cbn; lia.
Defined.

Lemma processHeadChange_appends_proposed_witness :
  exists rows,
    wdpost_partition_tasks
      (store (snd (processHeadChange (Scenario.task 120 no_faults) [Scenario.minerB]
                     (Scenario.headAt 119) (Scenario.headAt 120) Scenario.oneTask)))
    = wdpost_partition_tasks (store Scenario.oneTask) ++ rows
    /\ Forall (fun r =>
                 In (pt_identity r)
                    (proposed (Scenario.task 120 no_faults) (Scenario.headAt 120)
                       [Scenario.minerB])
                 /\ task_seq Scenario.oneTask <= pt_task_id r) rows
    /\ wdpost_proofs
         (store (snd (processHeadChange (Scenario.task 120 no_faults) [Scenario.minerB]
                        (Scenario.headAt 119) (Scenario.headAt 120) Scenario.oneTask)))
       = wdpost_proofs (store Scenario.oneTask)
    /\ harmony_test
         (store (snd (processHeadChange (Scenario.task 120 no_faults) [Scenario.minerB]
                        (Scenario.headAt 119) (Scenario.headAt 120) Scenario.oneTask)))
       = harmony_test (store Scenario.oneTask)
    /\ harmony_task_history
         (store (snd (processHeadChange (Scenario.task 120 no_faults) [Scenario.minerB]
                        (Scenario.headAt 119) (Scenario.headAt 120) Scenario.oneTask)))
       = harmony_task_history (store Scenario.oneTask)
    /\ calls (snd (processHeadChange (Scenario.task 120 no_faults) [Scenario.minerB]
                     (Scenario.headAt 119) (Scenario.headAt 120) Scenario.oneTask))
       = calls Scenario.oneTask.
Proof.
  exact (processHeadChange_appends_proposed (Scenario.task 120 no_faults)
           [Scenario.minerB] (Scenario.headAt 119) (Scenario.headAt 120)
           Scenario.oneTask eq_refl).
Defined.
